(** * offset: the cooperative kernel and the kqueue poller

    A shallow embedding of [offset/core/kernel.py] (class [Kernel]) and of
    [offset/net/fd_bsd.py] (class [Pollster]), with the properties of the
    scheduler, of the syscall bridge, of the signal buffer and of the
    poller stated over it.

    Python objects that the kernel only compares and stores (goroutines,
    futures) are identities; the attributes the kernel reads or writes on
    them live in the kernel state, so that every alias of an object sees
    the same flag.  Methods are computations in a state-and-exception
    monad; a statement of the source is one bind. *)

From Stdlib Require Import Ascii String ZArith List Lia.
From stdpp Require Import gmap strings list fin_maps functions.

Open Scope Z_scope.
Open Scope nat_scope.

(** ** Python values and exceptions *)

(** Goroutines ([proc.Proc], [proc.MainProc]) and futures, by identity. *)
Abbreviation gid := nat (only parsing).
Abbreviation fid := nat (only parsing).

(** The values the modelled code handles. *)
Inductive PyVal : Type :=
| PyNone
| PyInt (n : Z)
| PyStr (s : string).

(** The exceptions the modelled code raises or lets through. *)
Inductive PyExc : Type :=
| KernelError (msg : string)
| IndexError (msg : string)
| KeyError (key : fid)
| NameError (name : string)
| TypeError (msg : string)
| ValueError (msg : string)
| CancelledError
| select_error (errno : Z)
| UserError (tag : nat).

Inductive Res (A : Type) : Type :=
| Ok (a : A)
| Raise (e : PyExc).
Arguments Ok {A} a.
Arguments Raise {A} e.

Definition is_raise {A} (r : Res A) : bool :=
  match r with Raise _ => true | Ok _ => false end.

(** ** The state-and-exception monad *)

Definition M (St A : Type) : Type := St → Res A * St.

#[export] Instance M_ret {St} : MRet (M St) := λ A a s, (Ok a, s).

#[export] Instance M_bind {St} : MBind (M St) := λ A B f m s,
  match m s with
  | (Ok a, s') => f a s'
  | (Raise e, s') => (Raise e, s')
  end.

Definition raise {St A} (e : PyExc) : M St A := λ s, (Raise e, s).
Definition gets {St A} (f : St → A) : M St A := λ s, (Ok (f s), s).
Definition modify {St} (f : St → St) : M St unit := λ s, (Ok tt, f s).

(** [try: m except: h]: the handler sees the exception and the state the
    body left. *)
Definition try_except {St A} (m : M St A) (h : PyExc → M St A) : M St A :=
  λ s, match m s with
       | (Ok a, s') => (Ok a, s')
       | (Raise e, s') => h e s'
       end.

(** ** The kernel state *)

Module Kernel.

(** The worker pool, [futures.ThreadPoolExecutor]: what its constructor
    keeps. *)
Record ThreadPoolExecutor : Type := mkPool { _max_workers : Z }.

Record t : Type := mk {
  runq : list gid;                 (* deque() *)
  sleeping : gmap fid gid;         (* {} : future -> goroutine *)
  _run_calls : list gid;           (* [] : append / pop at the end *)
  _last_task : gid;
  _max_threads : PyVal;
  tpool : ThreadPoolExecutor;
  SIGQUEUE : list Z;               (* class attribute, shared *)
  SIGNAMES : gmap Z string;        (* class attribute *)
  g_sleeping : gid → bool;         (* the attribute g.sleeping *)
  g_alive : gid → bool             (* what g.is_alive() answers *)
}.

Definition set_runq (f : list gid → list gid) (k : t) : t :=
  mk (f (runq k)) (sleeping k) (_run_calls k) (_last_task k)
     (_max_threads k) (tpool k) (SIGQUEUE k) (SIGNAMES k)
     (g_sleeping k) (g_alive k).

Definition set_sleeping (f : gmap fid gid → gmap fid gid) (k : t) : t :=
  mk (runq k) (f (sleeping k)) (_run_calls k) (_last_task k)
     (_max_threads k) (tpool k) (SIGQUEUE k) (SIGNAMES k)
     (g_sleeping k) (g_alive k).

Definition set_run_calls (f : list gid → list gid) (k : t) : t :=
  mk (runq k) (sleeping k) (f (_run_calls k)) (_last_task k)
     (_max_threads k) (tpool k) (SIGQUEUE k) (SIGNAMES k)
     (g_sleeping k) (g_alive k).

Definition set_last_task (g : gid) (k : t) : t :=
  mk (runq k) (sleeping k) (_run_calls k) g
     (_max_threads k) (tpool k) (SIGQUEUE k) (SIGNAMES k)
     (g_sleeping k) (g_alive k).

Definition set_SIGQUEUE (f : list Z → list Z) (k : t) : t :=
  mk (runq k) (sleeping k) (_run_calls k) (_last_task k)
     (_max_threads k) (tpool k) (f (SIGQUEUE k)) (SIGNAMES k)
     (g_sleeping k) (g_alive k).

(** [g.sleeping = b] *)
Definition set_g_sleeping (g : gid) (b : bool) (k : t) : t :=
  mk (runq k) (sleeping k) (_run_calls k) (_last_task k)
     (_max_threads k) (tpool k) (SIGQUEUE k) (SIGNAMES k)
     (<[g := b]> (g_sleeping k)) (g_alive k).

(** The body of a goroutine returns or raises: [is_alive()] turns false.
    Not a kernel method; the kernel only observes it. *)
Definition set_g_alive (g : gid) (b : bool) (k : t) : t :=
  mk (runq k) (sleeping k) (_run_calls k) (_last_task k)
     (_max_threads k) (tpool k) (SIGQUEUE k) (SIGNAMES k)
     (g_sleeping k) (<[g := b]> (g_alive k)).

(** ** Deque operations *)

(** [deque.remove(g)]: drops the first occurrence, [ValueError] when there
    is none. *)
Fixpoint deque_remove (g : gid) (l : list gid) : option (list gid) :=
  match l with
  | [] => None
  | x :: l' => if decide (x = g) then Some l'
               else cons x <$> deque_remove g l'
  end.

(** [deque.rotate(-1)]: one step to the left, the head goes to the tail. *)
Definition deque_rotate_left (l : list gid) : list gid :=
  match l with
  | [] => []
  | x :: l' => l' ++ [x]
  end.

Definition runq_remove (g : gid) : M t unit :=
  q ← gets runq;
  match deque_remove g q with
  | Some q' => modify (set_runq (λ _, q'))
  | None => raise (ValueError "deque.remove(x): x not in deque")
  end.

(** [self.runq.popleft()] *)
Definition runq_popleft : M t gid :=
  q ← gets runq;
  match q with
  | [] => raise (IndexError "pop from an empty deque")
  | g :: q' => modify (set_runq (λ _, q'));; mret g
  end.

(** [self.runq[0]] *)
Definition runq_head : M t gid :=
  q ← gets runq;
  match q with
  | [] => raise (IndexError "deque index out of range")
  | g :: _ => mret g
  end.

(** ** Kernel methods: signals, spawn, park, ready *)

(** [signal_recv(self, sig)] *)
Definition signal_recv (sig : Z) : M t unit :=
  q ← gets SIGQUEUE;
  if bool_decide (length q < 5) then
    modify (set_SIGQUEUE (λ q, q ++ [sig]))
  else mret tt.

(** [newproc(self, func, *args, **kwargs)]; [g] is the object that
    [proc.Proc(self, func, args, kwargs)] creates. *)
Definition newproc (g : gid) : M t gid :=
  modify (set_runq (λ q, q ++ [g]));;
  mret g.

(** [removeg(self, g)], with [g] already resolved by
    [g or proc.current()]. *)
Definition removeg (g : gid) : M t unit :=
  try_except (runq_remove g) (λ _, mret tt).

(** [park(self, g)] up to its call of [self.schedule()], with [g] already
    resolved by [g or proc.current()]. *)
Definition park_prologue (g : gid) : M t unit :=
  modify (set_g_sleeping g true);;
  try_except (runq_remove g)
    (λ e, match e with ValueError _ => mret tt | _ => raise e end).

(** [ready(self, g)] *)
Definition ready (g : gid) : M t unit :=
  s ← gets (λ k, g_sleeping k g);
  if negb s then raise (KernelError "bad goroutine status")
  else
    modify (set_g_sleeping g false);;
    modify (set_runq (λ q, q ++ [g])).

(** [run(self)] up to its call of [self.schedule()]; [gcurrent] is
    [proc.current()]. *)
Definition run_prologue (gcurrent : gid) : M t unit :=
  modify (set_run_calls (λ l, l ++ [gcurrent])).

(** ** The signal table *)

(** [os.EX_IOERR], the exit status of an input/output error (sysexits). *)
Definition EX_IOERR : Z := 74%Z.

Definition ascii_lower (c : ascii) : ascii :=
  let n := nat_of_ascii c in
  if bool_decide (65 ≤ n ≤ 90) then ascii_of_nat (n + 32) else c.

(** [str.lower()] *)
Fixpoint lower (s : string) : string :=
  match s with
  | EmptyString => EmptyString
  | String c s' => String (ascii_lower c) (lower s')
  end.

(** [name[:3] == "SIG" and name[3] != "_"] *)
Definition is_signal_name (name : string) : bool :=
  String.eqb (substring 0 3 name) "SIG"
  && negb (String.eqb (substring 3 1 name) "_").

(** [SIGNAMES = dict((getattr(signal, name), name[3:].lower()) for name in
    dir(signal) if ...)]. [sigmod] lists the integer attributes of the
    platform's [signal] module as [dir] gives them; a later name with the
    same number replaces an earlier one, as [dict] does. *)
Definition make_SIGNAMES (sigmod : list (string * Z)) : gmap Z string :=
  foldl (λ m p, <[p.2 := lower (substring 3 (String.length p.1 - 3) p.1)]> m)
        ∅ (List.filter (λ p, is_signal_name p.1) sigmod).

(** [signame in ("quit", "int", "term",)] *)
Definition is_quit_name (signame : string) : bool :=
  bool_decide (signame ∈ ["quit"; "int"; "term"]%string).

(** ** The scheduling loop *)

(** What one iteration of [while True:] in [schedule] ends with. *)
Inductive tick : Type :=
| Exit (status : Z)        (* os._exit(status) *)
| Wait (fs : list fid)     (* futures.wait(...); continue *)
| Idle                     (* return, nothing left to run *)
| Pruned (gnext : gid)     (* self.runq.popleft(); continue *)
| Switch (gnext : gid)     (* gnext.switch() *)
| Back (gnext : gid).      (* return: gcurrent is self._last_task *)

(** The candidate [gnext] of an iteration, when it chose one. *)
Definition selected (o : tick) : option gid :=
  match o with
  | Pruned g | Switch g | Back g => Some g
  | Exit _ | Wait _ | Idle => None
  end.

(** [self.SIGQUEUE.pop(0) if len(self.SIGQUEUE) else None] *)
Definition drain_signal : M t (option Z) :=
  q ← gets SIGQUEUE;
  match q with
  | [] => mret None
  | sig :: q' => modify (set_SIGQUEUE (λ _, q'));; mret (Some sig)
  end.

(** Lines 115-120: does the drained signal end the process? *)
Definition is_fatal (sig : option Z) : M t bool :=
  names ← gets SIGNAMES;
  mret match sig with
       | None => false
       | Some s => match names !! s with
                   | Some signame => is_quit_name signame
                   | None => false
                   end
       end.

(** Lines 139-148, up to the switch. When [gnext == gcurrent] no switch
    happens and [self._last_task], just assigned, is [gcurrent]. *)
Definition dispatch (gcurrent gnext : gid) : M t tick :=
  alive ← gets (λ k, g_alive k gnext);
  if negb alive then
    runq_popleft;; mret (Pruned gnext)
  else
    modify (set_last_task gnext);;
    if decide (gnext ≠ gcurrent) then mret (Switch gnext)
    else mret (Back gnext).

(** [self._run_calls.pop()] *)
Definition run_calls_pop : M t gid :=
  l ← gets _run_calls;
  match list.last l with
  | None => raise (IndexError "pop from empty list")
  | Some g => modify (set_run_calls (@List.removelast _));; mret g
  end.

(** Lines 122-148 of an iteration, up to the switch, the [continue] or
    the [return]. *)
Definition schedule_body (gcurrent : gid) : M t tick :=
  q ← gets runq;
  match q with
  | g0 :: _ =>
      (if decide (g0 = gcurrent)
       then modify (set_runq deque_rotate_left) else mret tt);;
      gnext ← runq_head;
      dispatch gcurrent gnext
  | [] =>
      slp ← gets sleeping;
      if bool_decide (0 < size slp) then
        mret (Wait (map fst (map_to_list slp)))
      else
        rc ← gets _run_calls;
        match rc with
        | _ :: _ => gnext ← run_calls_pop; dispatch gcurrent gnext
        | [] => mret Idle
        end
  end.

(** One iteration of the loop of [schedule], from line 114 on;
    [gcurrent] is [proc.current()] as read at line 111. *)
Definition schedule_iter (gcurrent : gid) : M t tick :=
  sig ← drain_signal;
  fatal ← is_fatal sig;
  if (fatal : bool) then mret (Exit EX_IOERR)
  else schedule_body gcurrent.

(** Line 147, when control comes back after [gnext.switch()]:
    [true] is [return], [false] is another iteration. *)
Definition schedule_resume (gcurrent : gid) : M t bool :=
  lt ← gets _last_task;
  mret (bool_decide (gcurrent = lt)).

(** ** The syscall bridge *)

(** How the work behind a future ends. *)
Inductive outcome : Type :=
| Finished (v : PyVal)
| Failed (e : PyExc)
| Cancelled.

Record Future : Type := mkFuture { fut_id : fid; fut_outcome : outcome }.

(** [Future.cancelled()], [Future.exception()] and [Future.result()] of
    [concurrent.futures], on a future that is done. *)
Definition cancelled (f : Future) : bool :=
  match fut_outcome f with Cancelled => true | _ => false end.

Definition exception (f : Future) : Res (option PyExc) :=
  match fut_outcome f with
  | Cancelled => Raise CancelledError
  | Failed e => Ok (Some e)
  | Finished _ => Ok None
  end.

Definition result (f : Future) : Res PyVal :=
  match fut_outcome f with
  | Cancelled => Raise CancelledError
  | Failed e => Raise e
  | Finished v => Ok v
  end.

(** [self.sleeping.pop(f)] *)
Definition sleeping_pop (f : fid) : M t gid :=
  slp ← gets sleeping;
  match slp !! f with
  | None => raise (KeyError f)
  | Some g => modify (set_sleeping (delete f));; mret g
  end.

(** [exit_syscall(self, f)] *)
Definition exit_syscall (f : Future) : M t unit :=
  g ← sleeping_pop (fut_id f);
  if cancelled f then mret tt
  else
    alive ← gets (λ k, g_alive k g);
    if negb alive then mret tt
    else
      modify (set_g_sleeping g false);;
      modify (set_runq (cons g)).

(** [enter_syscall(self, fn, *args, **kwargs)] up to the [self.schedule()]
    inside [self.park()]. [gt] is [proc.current()], [f] the future that
    [self.tpool.submit] returns. [f.add_done_callback] calls its argument
    at once when the future is already done, which [done_now] tells;
    otherwise the callback runs later, as a call of [exit_syscall]. *)
Definition enter_syscall_prologue (gt : gid) (f : Future) (done_now : bool)
  : M t unit :=
  modify (set_g_sleeping gt true);;
  modify (set_sleeping (<[fut_id f := gt]>));;
  (if done_now then exit_syscall f else mret tt);;
  park_prologue gt.

(** [enter_syscall] after [self.park()] has returned: lines 166-168. *)
Definition enter_syscall_epilogue (f : Future) : Res PyVal :=
  match exception f with
  | Raise e => Raise e
  | Ok x =>
      if bool_decide (x ≠ None) then
        match exception f with
        | Raise e => Raise e
        | Ok (Some e) => Raise e
        | Ok None => Raise (TypeError "exceptions must derive from BaseException")
        end
      else result f
  end.

(** ** Construction *)

(** Lines 20-23; [cpu_count] is what [multiprocessing.cpu_count()] gives,
    [None] when it raises [NotImplementedError]. *)
Definition DEFAULT_MAX_THREADS (cpu_count : option Z) : Z :=
  match cpu_count with
  | Some n => n
  | None => 2%Z
  end.

(** Lines 45-48; the values of [os.environ] are strings. *)
Definition init_max_threads (environ : gmap string string)
    (cpu_count : option Z) : PyVal :=
  match environ !! "OFFSET_MAX_THREADS"%string with
  | Some v => PyStr v
  | None => PyInt (DEFAULT_MAX_THREADS cpu_count)
  end.

(** [futures.ThreadPoolExecutor(max_workers)] of the Python 3 library:
    [if max_workers is None: max_workers = min(32, (os.cpu_count() or 1)
    + 4)], then [if max_workers <= 0: raise ValueError(...)], and [<=]
    between a [str] and an [int] raises [TypeError]. *)
Definition ThreadPoolExecutor_init (cpu_count : option Z)
    (max_workers : PyVal) : Res ThreadPoolExecutor :=
  match max_workers with
  | PyNone => Ok (mkPool (Z.min 32 (default 1%Z cpu_count + 4)))
  | PyInt n =>
      if bool_decide (n ≤ 0)%Z
      then Raise (ValueError "max_workers must be greater than 0")
      else Ok (mkPool n)
  | PyStr _ =>
      Raise (TypeError
        "'<=' not supported between instances of 'str' and 'int'")
  end.

(** Modelled from the spec: [proc.Proc] and [proc.MainProc] are not in the
    source; a task is created runnable, that is alive and not sleeping.
    [new_alive] and [new_sleeping] are the flags of the objects not yet
    touched by the kernel. *)
Definition new_sleeping : gid → bool := λ _, false.
Definition new_alive : gid → bool := λ _, true.

(** [Kernel.__init__(self)], with the class attributes as the class
    statement leaves them; [main] is the object [proc.MainProc()]. *)
Definition __init__ (environ : gmap string string) (cpu_count : option Z)
    (sigmod : list (string * Z)) (main : gid) : Res t :=
  let max_threads := init_max_threads environ cpu_count in
  match ThreadPoolExecutor_init cpu_count max_threads with
  | Raise e => Raise e
  | Ok pool =>
      Ok (mk [] ∅ [] main max_threads pool [] (make_SIGNAMES sigmod)
             new_sleeping new_alive)
  end.

(** ** Runs of the kernel *)

(** The entry points, and the one event the kernel does not cause: the
    end of a goroutine's body. *)
Inductive call : Type :=
| SignalRecv (sig : Z)
| Newproc (g : gid)
| Removeg (g : gid)
| Park (g : gid)
| Ready (g : gid)
| Run (gcurrent : gid)
| Schedule (gcurrent : gid)
| EnterSyscall (gt : gid) (f : Future) (done_now : bool)
| ExitSyscall (f : Future)
| Dies (g : gid).

(** The state a call leaves, whether it returns or raises. *)
Definition exec (c : call) (k : t) : t :=
  match c with
  | SignalRecv sig => (signal_recv sig k).2
  | Newproc g => (newproc g k).2
  | Removeg g => (removeg g k).2
  | Park g => (park_prologue g k).2
  | Ready g => (ready g k).2
  | Run g => (run_prologue g k).2
  | Schedule g => (schedule_iter g k).2
  | EnterSyscall gt f d => (enter_syscall_prologue gt f d k).2
  | ExitSyscall f => (exit_syscall f k).2
  | Dies g => set_g_alive g false k
  end.

(** [g] waits for an offloaded call. *)
Definition in_sleeping (k : t) (g : gid) : Prop :=
  ∃ f, sleeping k !! f = Some g.

#[export] Instance in_sleeping_dec (k : t) (g : gid) :
  Decision (in_sleeping k g).
Proof.
  destruct (decide (map_Exists (λ _ g', g' = g) (sleeping k))) as [e|n];
    [left|right]; unfold in_sleeping, map_Exists in *.
  - destruct e as (f & g' & Hf & ->). by exists f.
  - intros [f Hf]. apply n. by exists f, g.
Defined.

(** What the objects themselves guarantee: [newproc] enqueues an object
    created by the call, [submit] returns a new future, and a goroutine
    suspended in [enter_syscall] does not call it again before it
    resumes. *)
Definition well_formed (k : t) (c : call) : Prop :=
  match c with
  | Newproc g => (g ∉ runq k) ∧ ¬ in_sleeping k g
  | EnterSyscall gt f _ => sleeping k !! fut_id f = None ∧ ¬ in_sleeping k gt
  | _ => True
  end.

(** [ready] is applied to parked goroutines only. *)
Definition wakes_parked (k : t) (c : call) : Prop :=
  match c with
  | Ready g => (g ∉ runq k) ∧ ¬ in_sleeping k g
  | _ => True
  end.

#[export] Instance well_formed_dec (k : t) (c : call) :
  Decision (well_formed k c).
Proof. destruct c; simpl; apply _. Defined.

#[export] Instance wakes_parked_dec (k : t) (c : call) :
  Decision (wakes_parked k c).
Proof. destruct c; simpl; apply _. Defined.

(** The run of a list of calls, the first call first. *)
Definition exec_all (cs : list call) (k : t) : t :=
  foldl (λ k c, exec c k) k cs.

(** Every call of [cs] is allowed by [ok] in the state it is made in. *)
Fixpoint allowed_all (ok : t → call → Prop) (cs : list call) (k : t)
  : Prop :=
  match cs with
  | [] => True
  | c :: cs' => ok k c ∧ allowed_all ok cs' (exec c k)
  end.

#[export] Instance allowed_all_dec ok `{∀ k c, Decision (ok k c)}
    (cs : list call) (k : t) : Decision (allowed_all ok cs k).
Proof. revert k. induction cs; simpl; intros; apply _. Defined.

(** What the iterations of the loop along a run ended with. *)
Fixpoint ticks (cs : list call) (k : t) : list (Res tick) :=
  match cs with
  | [] => []
  | c :: cs' =>
      match c with
      | Schedule g => [(schedule_iter g k).1]
      | _ => []
      end ++ ticks cs' (exec c k)
  end.

(** The states a run reaches from [k0] by calls that [ok] allows. *)
Inductive reachable_by (ok : t → call → Prop) (k0 : t) : t → Prop :=
| reach_init : reachable_by ok k0 k0
| reach_call k c :
    reachable_by ok k0 k → ok k c → reachable_by ok k0 (exec c k).

Definition reachable : t → t → Prop := reachable_by well_formed.

Definition reachable_parked : t → t → Prop :=
  reachable_by (λ k c, well_formed k c ∧ wakes_parked k c).

(** No goroutine is in the run queue and in the sleeping table at once,
    and the ones in the table have their flag set. *)
Definition disjoint_queues (k : t) : Prop :=
  (∀ g, g ∈ runq k → ¬ in_sleeping k g) ∧
  (∀ g, in_sleeping k g → g_sleeping k g = true).

(** Lines 114-120 as a test on the state: the head of the signal buffer
    has a name of the quit class. *)
Definition fatal_pending (k : t) : bool :=
  match head (SIGQUEUE k) with
  | None => false
  | Some sig => match SIGNAMES k !! sig with
                | Some signame => is_quit_name signame
                | None => false
                end
  end.

(** The run queue as line 126 reads it when [gcurrent] runs the loop. *)
Definition runq_for (gcurrent : gid) (q : list gid) : list gid :=
  match q with
  | g0 :: _ => if decide (g0 = gcurrent) then deque_rotate_left q else q
  | [] => []
  end.

(** [signal_recv] called once for each signal of [sigs], in order. *)
Definition signal_recv_all (sigs : list Z) (k : t) : t :=
  foldl (λ k sig, (signal_recv sig k).2) k sigs.

(** ** A platform, for running the model *)

(** The integer attributes of [signal] on Linux, as [dir(signal)] lists
    them. *)
Definition linux_signal : list (string * Z) :=
  [("ITIMER_PROF", 2); ("ITIMER_REAL", 0); ("ITIMER_VIRTUAL", 1);
   ("NSIG", 65); ("SIGABRT", 6); ("SIGALRM", 14); ("SIGBUS", 7);
   ("SIGCHLD", 17); ("SIGCLD", 17); ("SIGCONT", 18); ("SIGFPE", 8);
   ("SIGHUP", 1); ("SIGILL", 4); ("SIGINT", 2); ("SIGIO", 29);
   ("SIGIOT", 6); ("SIGKILL", 9); ("SIGPIPE", 13); ("SIGPOLL", 29);
   ("SIGPROF", 27); ("SIGPWR", 30); ("SIGQUIT", 3); ("SIGRTMAX", 64);
   ("SIGRTMIN", 34); ("SIGSEGV", 11); ("SIGSTOP", 19); ("SIGSYS", 31);
   ("SIGTERM", 15); ("SIGTRAP", 5); ("SIGTSTP", 20); ("SIGTTIN", 21);
   ("SIGTTOU", 22); ("SIGURG", 23); ("SIGUSR1", 10); ("SIGUSR2", 12);
   ("SIGVTALRM", 26); ("SIGWINCH", 28); ("SIGXCPU", 24); ("SIGXFSZ", 25);
   ("SIG_BLOCK", 0); ("SIG_DFL", 0); ("SIG_IGN", 1); ("SIG_SETMASK", 2);
   ("SIG_UNBLOCK", 1)]%string%Z.

(** The kernel of a process started with no override on a machine with
    four processors; the main goroutine is object 0. *)
Definition boot : t :=
  match __init__ ∅ (Some 4%Z) linux_signal 0 with
  | Ok k => k
  | Raise _ => mk [] ∅ [] 0 PyNone (mkPool 0) [] ∅ new_sleeping new_alive
  end.

(** The sleeping table, the flags and the signal names are the same in
    both states. *)
Definition same_tables (k k' : t) : Prop :=
  sleeping k' = sleeping k ∧ g_sleeping k' = g_sleeping k ∧
  g_alive k' = g_alive k ∧ SIGNAMES k' = SIGNAMES k.

(** Two goroutines spawned, none run yet. *)
Definition two_tasks : t := exec (Newproc 2) (exec (Newproc 1) boot).

(** Two offloaded calls that return [None]. *)
Definition f1 : Future := mkFuture 11 (Finished PyNone).
Definition f2 : Future := mkFuture 12 (Finished PyNone).

(** The main goroutine runs the kernel; goroutine 1 enters a syscall,
    goroutine 2 is switched into and enters one too, and the loop waits
    in the frame of goroutine 2; then, in [two_syscalls], the call of
    goroutine 1 completes. *)
Definition two_syscalls_pending : list call :=
  [Newproc 1; Newproc 2; Run 0; Schedule 0;
   EnterSyscall 1 f1 false; Schedule 1;
   EnterSyscall 2 f2 false; Schedule 2].
Definition two_syscalls : list call :=
  two_syscalls_pending ++ [ExitSyscall f1].

(** Goroutine 1 enters a syscall while goroutines 2 and 3 are queued;
    goroutine 2 is switched into and runs. *)
Definition syscall_among_tasks : list call :=
  [Newproc 1; Newproc 2; Newproc 3; Run 0; Schedule 0;
   EnterSyscall 1 f1 false; Schedule 1].

(** Goroutine 1 calls [run()] from its own body and then ends, while the
    main goroutine is still inside its [run()]: the loop of the main
    goroutine prunes goroutine 1 from the run queue and goes round once
    more. *)
Definition nested_run : list call :=
  [Newproc 1; Run 0; Schedule 0; Run 1; Schedule 1; Dies 1; Schedule 0].

(** Goroutine 1 waits for an offloaded call; goroutine 2, switched into,
    calls [ready] on it. *)
Definition ready_in_syscall : list call :=
  [Newproc 1; Newproc 2; Run 0; Schedule 0;
   EnterSyscall 1 f1 false; Schedule 1; Ready 1].

(** What [try: self.runq.remove(g)] with the exception passed over leaves
    of the queue. *)
Definition remove_or_keep (g : gid) (q : list gid) : list gid :=
  default q (deque_remove g q).

(** The invariant behind [disjoint_queues], on the three parts of the
    state it reads: no goroutine is twice in the run queue, a goroutine of
    the sleeping table has its flag set and is not in the run queue, and
    it waits for one future only. *)
Definition queues_inv3 (rq : list gid) (sl : gmap fid gid)
    (fl : gid → bool) : Prop :=
  NoDup rq ∧
  (∀ f g, sl !! f = Some g → fl g = true ∧ g ∉ rq) ∧
  (∀ f f' g, sl !! f = Some g → sl !! f' = Some g → f = f').

Definition queues_inv (k : t) : Prop :=
  queues_inv3 (runq k) (sleeping k) (g_sleeping k).

(** ** The loop, iterated *)

(** The loop of [schedule] for as long as it stays in the frame of
    [gcurrent] without waiting: an iteration that prunes a dead goroutine
    goes on with the next one ([continue], line 141); any other outcome
    ends the run. [None] when [fuel] iterations were not enough. *)
Fixpoint schedule_loop (fuel : nat) (gcurrent : gid) (k : t)
  : option (Res tick * t) :=
  match fuel with
  | 0 => None
  | S fuel' =>
      match schedule_iter gcurrent k with
      | (Ok (Pruned _), k') => schedule_loop fuel' gcurrent k'
      | r => Some r
      end
  end.

(** [run(self)], with the same fuel. *)
Definition run (fuel : nat) (gcurrent : gid) (k : t)
  : option (Res tick * t) :=
  schedule_loop fuel gcurrent (run_prologue gcurrent k).2.

(** Goroutines that call [schedule()] in turn ([gosched]): each of the
    [n] calls is made by the goroutine the call before switched into,
    the first by [gcurrent]; the turn ends early on any outcome other
    than a switch. *)
Fixpoint gosched_round (n : nat) (gcurrent : gid) (k : t)
  : list (Res tick) * t :=
  match n with
  | 0 => ([], k)
  | S n' =>
      match schedule_iter gcurrent k with
      | (Ok (Switch gnext), k') =>
          let (rs, k'') := gosched_round n' gnext k' in
          (Ok (Switch gnext) :: rs, k'')
      | (r, k') => ([r], k')
      end
  end.

End Kernel.

(** ** The kqueue poller *)

Module Pollster.

Record kevent : Type := mk_kevent { ident : Z; filter : Z }.

(** [select.KQ_FILTER_READ] and [errno.EINTR]. *)
Definition KQ_FILTER_READ : Z := (-1)%Z.
Definition EINTR : Z := 4%Z.

(** What one call [self.kq.control(None, 0, nsec)] does. *)
Inductive kq_reply : Type :=
| Events (evs : list kevent)
| OSError (errno : Z).      (* raises select.error(errno, ...) *)

Record t : Type := mk {
  events : list kevent;      (* self.events *)
  locked : bool              (* the lock behind pollserver.lock/unlock *)
}.

Definition set_events (f : list kevent → list kevent) (p : t) : t :=
  mk (f (events p)) (locked p).
Definition set_locked (b : bool) (p : t) : t := mk (events p) b.

(** The names bound at module level in [fd_bsd.py]: its two imports and
    its class. *)
Definition module_globals : list string :=
  ["fd_"; "select"; "Pollster"]%string.

(** [try: m finally: fin] *)
Definition try_finally {St A} (m : M St A) (fin : M St unit) : M St A :=
  λ s, match m s with
       | (Ok a, s') => match fin s' with
                       | (Ok _, s'') => (Ok a, s'')
                       | (Raise e, s'') => (Raise e, s'')
                       end
       | (Raise e, s') => match fin s' with
                          | (Ok _, s'') => (Raise e, s'')
                          | (Raise e', s'') => (Raise e', s'')
                          end
       end.

Section waitfd.

(** [.util.fd_] is not in the source. *)
Variable fd_ : Z → Z.
(** The module namespace in which the body of [waitfd] looks up its
    global names. *)
Variable globals : list string.

(** Lines 49-56: [Some evs] when the loop goes on to line 58, [None] on
    [continue]. A name that is not bound raises [NameError] when it is
    evaluated. *)
Definition control_guarded (r : kq_reply) : M t (option (list kevent)) :=
  modify (set_locked true);;
  try_finally
    match r with
    | Events evs => mret (Some evs)
    | OSError code =>
        if bool_decide ("errno"%string ∈ globals) then
          if bool_decide (code = EINTR) then mret None
          else raise (select_error code)
        else raise (NameError "errno")
    end
    (modify (set_locked false)).

(** Lines 47-58. [replies] are the answers of the operating system to the
    calls to come; when there is none left the call of line 50 does not
    return, which [false] tells. *)
Fixpoint waitfd_loop (replies : list kq_reply) : M t bool :=
  evs ← gets events;
  if bool_decide (length evs = 0) then
    match replies with
    | [] => modify (set_locked true);; mret false
    | r :: replies' =>
        got ← control_guarded r;
        match got with
        | Some new => modify (set_events (λ l, l ++ new))
        | None => mret tt
        end;;
        waitfd_loop replies'
    end
  else mret true.

(** [waitfd(self, pollserver, nsec=0)]; [None] when it blocks for ever. *)
Definition waitfd (replies : list kq_reply) : M t (option (Z * string)) :=
  ok ← waitfd_loop replies;
  if (ok : bool) then
    evs ← gets events;
    match evs with
    | [] => raise (IndexError "pop from empty list")
    | ev :: evs' =>
        modify (set_events (λ _, evs'));;
        let mode := if bool_decide (filter ev = KQ_FILTER_READ)
                    then "r"%string else "w"%string in
        mret (Some (fd_ (ident ev), mode))
    end
  else mret None.

End waitfd.

(** ** Registering interest *)

(** A change handed to the kernel queue: [select.kevent(ident, filter,
    flags)]. *)
Record kchange : Type :=
  mk_kchange { ch_ident : Z; ch_filter : Z; ch_flags : Z }.

(** [select.KQ_FILTER_WRITE] and the [KQ_EV_*] flags. *)
Definition KQ_FILTER_WRITE : Z := (-2)%Z.
Definition KQ_EV_ADD : Z := 1%Z.
Definition KQ_EV_DELETE : Z := 2%Z.
Definition KQ_EV_ENABLE : Z := 4%Z.
Definition KQ_EV_ONESHOT : Z := 16%Z.

Section registration.

(** The module namespace, the function a bound [_fd] would be, and
    whether [sys.platform] starts with ["darwin"]. *)
Variable globals : list string.
Variable _fd : Z → Z.
Variable darwin : bool.

(** The evaluation of a global name. *)
Definition global {St} (name : string) : M St unit :=
  if bool_decide (name ∈ globals) then mret tt else raise (NameError name).

(** [addfd(self, fd, mode, repeat=True)]. The state is the list of the
    changes submitted so far.
    Modelled from the spec: [select.control] is not in the source; it is
    taken to submit the change, which registers the interest. *)
Definition addfd (fd : Z) (mode : string) (repeat : bool)
  : M (list kchange) unit :=
  kmode ← (if String.eqb mode "r"
           then global "select";; mret KQ_FILTER_READ
           else global "selecy";; mret KQ_FILTER_WRITE);
  global "select";;
  let flags := KQ_EV_ADD in
  global "sys";;
  flags ← (if darwin
           then global "select";; mret (Z.lor flags KQ_EV_ENABLE)
           else mret flags);
  flags ← (if negb repeat
           then global "select";; mret (Z.lor flags KQ_EV_ONESHOT)
           else mret flags);
  global "select";;
  global "_fd";;
  let ev := mk_kchange (_fd fd) kmode flags in
  global "select";;
  modify (λ l, l ++ [ev]).

(** [delfd(self, fd, mode)]; the change it builds names the read filter
    whatever [mode] is. *)
Definition delfd (fd : Z) (mode : string) : M (list kchange) unit :=
  kmode ← (if String.eqb mode "r"
           then global "syscall";; mret KQ_FILTER_READ
           else global "syscall";; mret KQ_FILTER_WRITE);
  global "select";;
  global "_fd";;
  global "select";;
  global "select";;
  let ev := mk_kchange (_fd fd) KQ_FILTER_READ KQ_EV_DELETE in
  global "select";;
  modify (λ l, l ++ [ev]).

(** [Pollster.__init__(self)]: the object, when the constructor
    returns. *)
Definition __init__ : Res t :=
  match (global "select";; global "syscall") tt with
  | (Ok _, _) => Ok (mk [] false)
  | (Raise e, _) => Raise e
  end.

End registration.

End Pollster.

(** * Properties of the kernel *)

Module KernelProps.
Import Kernel.

(** Unfolds one layer of the monad. *)
Ltac run_m :=
  repeat (unfold mbind, M_bind, mret, M_ret, gets, modify, raise,
            try_except in *; simpl in *).

(** ** The syscall bridge: what the caller observes on resume *)

(** C3: when the calling task resumes from an offloaded call, a failure
    raised by the worker is raised again, the same exception, in the task,
    and otherwise [enter_syscall] returns the value the worker returned. *)
Theorem enter_syscall_resume_outcome (id : fid) :
  (∀ e, enter_syscall_epilogue (mkFuture id (Failed e)) = Raise e) ∧
  (∀ v, enter_syscall_epilogue (mkFuture id (Finished v)) = Ok v).
Proof. split; intros; reflexivity. Qed.

(** A cancelled future is neither case: its [exception()] raises. *)
Lemma enter_syscall_resume_cancelled (id : fid) :
  enter_syscall_epilogue (mkFuture id Cancelled) = Raise CancelledError.
Proof. reflexivity. Qed.

(** ** [ready] *)

(** C4: [ready(g)] raises [KernelError] exactly when [g.sleeping] is not
    set; then nothing of the kernel state has changed. When [g] sleeps,
    [ready(g)] clears the flag and appends [g] at the tail of the run
    queue. *)
Theorem ready_guard (k : t) (g : gid) :
  (is_raise (ready g k).1 = true ↔ g_sleeping k g = false) ∧
  (g_sleeping k g = false →
     ready g k = (Raise (KernelError "bad goroutine status"), k)) ∧
  (g_sleeping k g = true →
     (ready g k).1 = Ok tt ∧
     g_sleeping (ready g k).2 g = false ∧
     runq (ready g k).2 = runq k ++ [g] ∧
     sleeping (ready g k).2 = sleeping k ∧
     (∀ g', g' ≠ g → g_sleeping (ready g k).2 g' = g_sleeping k g')).
Proof.
  unfold ready. run_m.
  destruct (g_sleeping k g) eqn:Hs; simpl.
  - split; [split; discriminate|].
    split; [discriminate|]. intros _.
    repeat split; try reflexivity.
    + apply fn_lookup_insert.
    + intros g' Hne. by apply fn_lookup_insert_ne.
  - split; [done|]. split; [done|]. discriminate.
Qed.

Lemma ready_guard_witness :
  (ready 1 boot).1 = Raise (KernelError "bad goroutine status") ∧
  (ready 1 boot).2 = boot.
Proof.
  destruct (ready_guard boot 1) as (_ & Herr & _).
  rewrite Herr by reflexivity. done.
Defined.

(** ** The signal buffer *)

Lemma signal_recv_length (k : t) (sig : Z) :
  length (SIGQUEUE k) ≤ 5 → length (SIGQUEUE (signal_recv sig k).2) ≤ 5.
Proof.
  intros H. unfold signal_recv. run_m.
  case_bool_decide; simpl; [rewrite length_app; simpl; lia | done].
Qed.

Lemma signal_recv_all_length (sigs : list Z) (k : t) :
  length (SIGQUEUE k) ≤ 5 →
  length (SIGQUEUE (signal_recv_all sigs k)) ≤ 5.
Proof.
  revert k. induction sigs as [|sig sigs IH]; intros k H; [done|].
  apply IH. by apply signal_recv_length.
Qed.

(** C5: whatever the sequence of calls of [signal_recv], the buffer never
    holds more than 5 signals: a call appends the signal when fewer than 5
    are buffered, and with 5 buffered it returns without an error and
    leaves the state as it was. *)
Theorem signal_recv_bounded (k : t) (sigs : list Z) (sig : Z) :
  length (SIGQUEUE k) ≤ 5 →
  let k' := signal_recv_all sigs k in
  length (SIGQUEUE k') ≤ 5 ∧
  (signal_recv sig k').1 = Ok tt ∧
  (length (SIGQUEUE k') < 5 →
     SIGQUEUE (signal_recv sig k').2 = SIGQUEUE k' ++ [sig]) ∧
  (length (SIGQUEUE k') = 5 → (signal_recv sig k').2 = k').
Proof.
  intros H k'.
  split; [by apply signal_recv_all_length|].
  unfold signal_recv. run_m.
  case_bool_decide; simpl; repeat split; try done; lia.
Qed.

(** Ten signals in a row on the empty buffer: the first five stay. *)
Lemma signal_recv_bounded_witness :
  SIGQUEUE (signal_recv_all [10; 12; 10; 12; 10; 12; 10; 12; 10; 12]%Z boot)
  = [10; 12; 10; 12; 10]%Z ∧
  (signal_recv 12%Z
     (signal_recv_all [10; 12; 10; 12; 10; 12; 10; 12; 10; 12]%Z boot)).2
  = signal_recv_all [10; 12; 10; 12; 10; 12; 10; 12; 10; 12]%Z boot.
Proof.
  split; [reflexivity|].
  refine (proj2 (proj2 (proj2
    (signal_recv_bounded boot [10; 12; 10; 12; 10; 12; 10; 12; 10; 12]%Z
       12%Z _))) _).
  - vm_compute. lia.
  - reflexivity.
Defined.

(** ** The scheduling loop *)

Lemma drain_signal_eq (k : t) :
  drain_signal k = (Ok (head (SIGQUEUE k)), set_SIGQUEUE tail k).
Proof. destruct k as [? ? ? ? ? ? sq ? ? ?]. by destruct sq. Qed.

Lemma schedule_iter_eq (gcurrent : gid) (k : t) :
  schedule_iter gcurrent k =
  if fatal_pending k then (Ok (Exit EX_IOERR), set_SIGQUEUE tail k)
  else schedule_body gcurrent (set_SIGQUEUE tail k).
Proof.
  unfold schedule_iter, fatal_pending.
  unfold mbind at 1, M_bind at 1. rewrite drain_signal_eq.
  unfold is_fatal. run_m.
  destruct (head (SIGQUEUE k)) as [sig|]; [|done].
  destruct (SIGNAMES k !! sig) as [signame|]; [|done].
  by destruct (is_quit_name signame).
Qed.

Lemma dispatch_eq (gcurrent gnext : gid) (k : t) :
  dispatch gcurrent gnext k =
  if g_alive k gnext then
    (Ok (if decide (gnext ≠ gcurrent) then Switch gnext else Back gnext),
     set_last_task gnext k)
  else match runq k with
       | [] => (Raise (IndexError "pop from an empty deque"), k)
       | _ :: q => (Ok (Pruned gnext), set_runq (λ _, q) k)
       end.
Proof.
  unfold dispatch, runq_popleft. run_m.
  destruct (g_alive k gnext); simpl.
  - by destruct (decide (gnext ≠ gcurrent)).
  - by destruct (runq k).
Qed.

Lemma schedule_body_runq (gcurrent g0 : gid) (q : list gid) (k : t) :
  runq k = g0 :: q →
  ∃ gnext, head (runq_for gcurrent (g0 :: q)) = Some gnext ∧
    schedule_body gcurrent k =
    dispatch gcurrent gnext (set_runq (runq_for gcurrent) k).
Proof.
  destruct k as [rq ? ? ? ? ? ? ? ? ?]. simpl. intros ->.
  unfold schedule_body, runq_head, runq_for. run_m.
  destruct (decide (g0 = gcurrent)) as [->|Hne]; simpl.
  - destruct q as [|g1 q]; simpl; eexists; (split; [done|]);
      unfold set_runq; simpl; by rewrite decide_True.
  - eexists; split; [done|].
    unfold set_runq; simpl. by rewrite decide_False.
Qed.

(** C1: in an iteration of the loop of [schedule] that goes on to select
    (it does not end the process on a signal), when the run queue is not
    empty and its head is the task that runs the loop, the queue is
    rotated, head to tail, before the selection; the candidate is the head
    of the queue as it then stands, and of the unchanged queue when the
    head was another task. *)
Theorem schedule_rotates_before_selecting
    (k : t) (gcurrent g0 : gid) (q : list gid) :
  runq k = g0 :: q →
  (schedule_iter gcurrent k).1 ≠ Ok (Exit EX_IOERR) →
  let q' := if decide (g0 = gcurrent) then q ++ [g0] else g0 :: q in
  ∃ gnext o,
    head q' = Some gnext ∧
    (schedule_iter gcurrent k).1 = Ok o ∧
    selected o = Some gnext ∧
    runq (schedule_iter gcurrent k).2
      = if g_alive k gnext then q' else tail q'.
Proof.
  intros Hq Hlive q'. rewrite schedule_iter_eq in *.
  destruct (fatal_pending k); [done|]. clear Hlive.
  destruct (schedule_body_runq gcurrent g0 q (set_SIGQUEUE tail k) Hq)
    as (gnext & Hhd & ->).
  assert (runq_for gcurrent (g0 :: q) = q') as Hq'.
  { unfold runq_for, q'. by destruct (decide (g0 = gcurrent)). }
  rewrite Hq' in Hhd.
  rewrite dispatch_eq. simpl. rewrite Hq, Hq'.
  exists gnext. destruct (g_alive k gnext) eqn:Ha.
  - eexists. split; [done|]. split; [done|].
    split; [by destruct (decide (gnext ≠ gcurrent))|].
    simpl. by rewrite Hq.
  - destruct q' as [|g1 q1]; [done|].
    eexists. by repeat split.
Qed.

Lemma schedule_rotates_before_selecting_witness :
  runq two_tasks = [1; 2] ∧
  ∃ gnext o,
    head [2; 1] = Some gnext ∧
    (schedule_iter 1 two_tasks).1 = Ok o ∧
    selected o = Some gnext ∧
    runq (schedule_iter 1 two_tasks).2
      = if g_alive two_tasks gnext then [2; 1] else tail [2; 1].
Proof.
  split; [reflexivity|].
  apply (schedule_rotates_before_selecting two_tasks 1 1 [2]).
  - reflexivity.
  - vm_compute. discriminate.
Defined.

Lemma dispatch_footprint (gcurrent gnext : gid) (k : t) :
  let k' := (dispatch gcurrent gnext k).2 in
  same_tables k k' ∧ SIGQUEUE k' = SIGQUEUE k ∧
  (runq k' = runq k ∨ runq k' = tail (runq k)).
Proof.
  rewrite dispatch_eq. unfold same_tables.
  destruct (g_alive k gnext); simpl; [repeat split; auto|].
  destruct (runq k) eqn:Hq; simpl; rewrite ?Hq; repeat split; auto.
Qed.

Lemma schedule_body_footprint (gcurrent : gid) (k : t) :
  let k' := (schedule_body gcurrent k).2 in
  same_tables k k' ∧ SIGQUEUE k' = SIGQUEUE k ∧
  (runq k' = runq_for gcurrent (runq k) ∨
   runq k' = tail (runq_for gcurrent (runq k))).
Proof.
  destruct (runq k) as [|g0 q] eqn:Hq.
  - unfold schedule_body, run_calls_pop. run_m. rewrite Hq.
    case_bool_decide; simpl;
      [unfold same_tables; rewrite ?Hq; repeat split; auto|].
    destruct (_run_calls k) as [|g1 rc] eqn:Hrc; simpl;
      [unfold same_tables; rewrite ?Hq; repeat split; auto|].
    destruct (list.last (_run_calls k)) as [g|] eqn:Hl; simpl;
      [|unfold same_tables; rewrite ?Hq; repeat split; auto].
    pose proof (dispatch_footprint gcurrent g
                  (set_run_calls (@removelast _) k)) as Hd.
    unfold same_tables in *. simpl in Hd. rewrite Hq in Hd. exact Hd.
  - destruct (schedule_body_runq gcurrent g0 q k Hq) as (gnext & _ & ->).
    pose proof (dispatch_footprint gcurrent gnext
                  (set_runq (runq_for gcurrent) k)) as H.
    simpl in H. rewrite Hq in H. exact H.
Qed.

Lemma schedule_iter_footprint (gcurrent : gid) (k : t) :
  let k' := (schedule_iter gcurrent k).2 in
  same_tables k k' ∧ SIGQUEUE k' = tail (SIGQUEUE k) ∧
  (runq k' = runq k ∨ runq k' = runq_for gcurrent (runq k) ∨
   runq k' = tail (runq_for gcurrent (runq k))).
Proof.
  rewrite schedule_iter_eq. destruct (fatal_pending k); simpl.
  - unfold same_tables. simpl. repeat split; auto.
  - destruct (schedule_body_footprint gcurrent (set_SIGQUEUE tail k))
      as (Ht & Hs & Hr).
    split; [exact Ht|]. split; [exact Hs|]. right. exact Hr.
Qed.

(** C6: an iteration of the loop of [schedule] takes at most one signal
    out of the buffer, the oldest; when that signal is of the quit class
    (its name in [SIGNAMES] is quit, int or term) the iteration ends the
    process with the status [os.EX_IOERR], with no candidate selected, the
    run queue and the last dispatched task being as they were. *)
Theorem schedule_signal_halts (k : t) (gcurrent : gid) :
  SIGQUEUE (schedule_iter gcurrent k).2 = tail (SIGQUEUE k) ∧
  ∀ sig signame,
    head (SIGQUEUE k) = Some sig →
    SIGNAMES k !! sig = Some signame →
    signame ∈ ["quit"; "int"; "term"]%string →
    (schedule_iter gcurrent k).1 = Ok (Exit EX_IOERR) ∧
    selected (Exit EX_IOERR) = None ∧
    runq (schedule_iter gcurrent k).2 = runq k ∧
    _run_calls (schedule_iter gcurrent k).2 = _run_calls k ∧
    _last_task (schedule_iter gcurrent k).2 = _last_task k.
Proof.
  split; [apply schedule_iter_footprint|].
  intros sig signame Hhd Hname Hquit.
  rewrite schedule_iter_eq. unfold fatal_pending.
  rewrite Hhd, Hname. unfold is_quit_name.
  by rewrite bool_decide_eq_true_2.
Qed.

(** The interrupt signal, number 2 on Linux, with two goroutines queued. *)
Lemma schedule_signal_halts_witness :
  (schedule_iter 0 (exec (SignalRecv 2%Z) two_tasks)).1 = Ok (Exit 74%Z) ∧
  runq (schedule_iter 0 (exec (SignalRecv 2%Z) two_tasks)).2 = [1; 2].
Proof.
  destruct (proj2 (schedule_signal_halts (exec (SignalRecv 2%Z) two_tasks) 0)
              2%Z "int"%string) as (Hexit & _ & Hq & _).
  - reflexivity.
  - vm_compute. reflexivity.
  - compute_done.
  - split; [exact Hexit|]. rewrite Hq. reflexivity.
Defined.

(** ** Runs *)

Lemma reachable_by_exec_all ok (k0 : t) (cs : list call) (k : t) :
  reachable_by ok k0 k → allowed_all ok cs k →
  reachable_by ok k0 (exec_all cs k).
Proof.
  revert k. induction cs as [|c cs IH]; intros k Hk Hcs; [done|].
  destruct Hcs as [Hc Hcs]. apply IH; [|done]. by apply reach_call.
Qed.

(** ** Completion of an offloaded call *)

Lemma exit_syscall_eq (f : Future) (g : gid) (k : t) :
  sleeping k !! fut_id f = Some g →
  cancelled f = false →
  g_alive k g = true →
  exit_syscall f k =
  (Ok tt, set_runq (cons g) (set_g_sleeping g false
                               (set_sleeping (delete (fut_id f)) k))).
Proof.
  intros Hf Hc Ha. unfold exit_syscall, sleeping_pop. run_m.
  rewrite Hf. simpl. rewrite Hc. simpl. by rewrite Ha.
Qed.




(** ** Pruning a dead candidate *)

(** C8 fails on the code: a goroutine that called [run()] and then ended
    stays on [_run_calls]; once the run queue and the sleeping table are
    empty the loop pops it as the candidate, finds it dead and calls
    [popleft] on the empty run queue, which raises [IndexError]. *)
Theorem prune_underflows_on_run_calls :
  let k := exec_all nested_run boot in
  reachable boot k ∧
  runq k = [] ∧ sleeping k = ∅ ∧ _run_calls k = [0; 1] ∧
  g_alive k 1 = false ∧
  ∀ gcurrent,
    (schedule_iter gcurrent k).1
    = Raise (IndexError "pop from an empty deque").
Proof.
  split.
  { apply reachable_by_exec_all; [apply reach_init|]. compute_done. }
  do 4 (split; [reflexivity|]).
  intros gcurrent. rewrite schedule_iter_eq.
  change (fatal_pending (exec_all nested_run boot)) with false.
  reflexivity.
Qed.

(** ** The run queue and the sleeping table *)

Lemma deque_remove_None (g : gid) (l : list gid) :
  deque_remove g l = None → g ∉ l.
Proof.
  induction l as [|x l IH]; simpl; [intros _; apply not_elem_of_nil|].
  destruct (decide (x = g)); [done|].
  destruct (deque_remove g l); [done|]. intros _.
  rewrite elem_of_cons. intuition (subst; eauto; congruence).
Qed.

Lemma deque_remove_Some (g : gid) (l l' : list gid) :
  deque_remove g l = Some l' →
  (∀ x, x ∈ l' → x ∈ l) ∧ (NoDup l → NoDup l' ∧ g ∉ l').
Proof.
  revert l'. induction l as [|x l IH]; simpl; intros l' H; [done|].
  destruct (decide (x = g)) as [->|Hne].
  - injection H as ->. split.
    + intros x Hx. rewrite elem_of_cons. by right.
    + intros Hnd. apply list.NoDup_cons in Hnd. intuition (subst; eauto; congruence).
  - destruct (deque_remove g l) as [l1|] eqn:E; [|done].
    injection H as <-. destruct (IH l1 eq_refl) as [Hsub Hnd].
    split.
    + intros y. rewrite !elem_of_cons. intuition (subst; eauto; congruence).
    + intros Hx. apply list.NoDup_cons in Hx as [Hx Hl].
      destruct (Hnd Hl) as [Hl1 Hg]. split.
      * apply list.NoDup_cons. intuition (subst; eauto; congruence).
      * rewrite elem_of_cons. intuition (subst; eauto; congruence).
Qed.

Lemma remove_or_keep_sub (g : gid) (l : list gid) (x : gid) :
  x ∈ remove_or_keep g l → x ∈ l.
Proof.
  unfold remove_or_keep. destruct (deque_remove g l) as [l'|] eqn:E;
    simpl; [|done].
  by apply (deque_remove_Some g l l' E).
Qed.

Lemma remove_or_keep_NoDup (g : gid) (l : list gid) :
  NoDup l → NoDup (remove_or_keep g l) ∧ g ∉ remove_or_keep g l.
Proof.
  unfold remove_or_keep. destruct (deque_remove g l) as [l'|] eqn:E; simpl.
  - apply (deque_remove_Some g l l' E).
  - intros Hnd. split; [done|]. by apply deque_remove_None.
Qed.

Lemma runq_for_sub (gcurrent : gid) (q : list gid) (x : gid) :
  x ∈ runq_for gcurrent q → x ∈ q.
Proof.
  destruct q as [|g0 q]; simpl; [done|].
  destruct (decide (g0 = gcurrent)); [|done]. simpl.
  rewrite elem_of_app, list_elem_of_singleton, elem_of_cons. intuition (subst; eauto; congruence).
Qed.

Lemma runq_for_NoDup (gcurrent : gid) (q : list gid) :
  NoDup q → NoDup (runq_for gcurrent q).
Proof.
  destruct q as [|g0 q]; simpl; [done|].
  destruct (decide (g0 = gcurrent)); [|done]. simpl.
  rewrite list.NoDup_cons, list.NoDup_app. intros [Hg0 Hq].
  split; [done|]. split; [|apply NoDup_singleton].
  intros x Hx. rewrite list_elem_of_singleton. intuition (subst; eauto; congruence).
Qed.

Lemma tail_sub (q : list gid) (x : gid) : x ∈ tail q → x ∈ q.
Proof. destruct q; simpl; [done|]. rewrite elem_of_cons. by right. Qed.

Lemma tail_NoDup (q : list gid) : NoDup q → NoDup (tail q).
Proof. destruct q; simpl; [done|]. apply NoDup_cons_1_2. Qed.

(** A smaller run queue and more flags set keep the invariant. *)
Lemma queues_inv3_mono rq rq' (sl : gmap fid gid) (fl fl' : gid → bool) :
  queues_inv3 rq sl fl →
  NoDup rq' → (∀ x, x ∈ rq' → x ∈ rq) →
  (∀ g, fl g = true → fl' g = true) →
  queues_inv3 rq' sl fl'.
Proof.
  intros (Hnd & Hsl & Hinj) Hnd' Hsub Hfl.
  split; [done|]. split; [|done].
  intros f g Hf. destruct (Hsl f g Hf). intuition (subst; eauto; congruence).
Qed.

Lemma queues_inv3_delete rq (sl : gmap fid gid) fl (f : fid) :
  queues_inv3 rq sl fl → queues_inv3 rq (delete f sl) fl.
Proof.
  intros (Hnd & Hsl & Hinj). split; [done|]. split.
  - intros f' g Hf. apply lookup_delete_Some in Hf as [_ Hf]. eauto.
  - intros f1 f2 g H1 H2. apply lookup_delete_Some in H1 as [_ H1].
    apply lookup_delete_Some in H2 as [_ H2]. eauto.
Qed.

(** A goroutine out of the table enters the queue where it is not yet,
    at either end, whatever its flag becomes. *)
Lemma queues_inv3_enqueue rq rq' (sl : gmap fid gid) fl fl' (g : gid) :
  queues_inv3 rq sl fl →
  (∀ f, sl !! f ≠ Some g) → g ∉ rq →
  (∀ x, x ∈ rq' ↔ x = g ∨ x ∈ rq) → NoDup rq' →
  (∀ x, x ≠ g → fl' x = fl x) →
  queues_inv3 rq' sl fl'.
Proof.
  intros (Hnd & Hsl & Hinj) Hg Hrq Hrq' Hnd' Hfl.
  split; [done|]. split; [|done].
  intros f x Hf. destruct (Hsl f x Hf) as [Hx1 Hx2].
  assert (x ≠ g) by (intros ->; by apply (Hg f)).
  split; [by rewrite Hfl|]. rewrite Hrq'. intuition (subst; eauto; congruence).
Qed.

(** A goroutine with its flag set and out of the queue enters the table
    under a new future. *)
Lemma queues_inv3_insert rq (sl : gmap fid gid) fl (f : fid) (g : gid) :
  queues_inv3 rq sl fl →
  sl !! f = None → (∀ f', sl !! f' ≠ Some g) →
  fl g = true → g ∉ rq →
  queues_inv3 rq (<[f := g]> sl) fl.
Proof.
  intros (Hnd & Hsl & Hinj) Hf Hg Hfl Hrq.
  split; [done|]. split.
  - intros f' x Hx. apply lookup_insert_Some in Hx as [[_ <-]|[_ Hx]];
      [done|eauto].
  - intros f1 f2 x H1 H2.
    apply lookup_insert_Some in H1 as [[<- <-]|[Hn1 H1]];
      apply lookup_insert_Some in H2 as [[<- Heq]|[Hn2 H2]];
      try done; subst; try (by destruct (Hg _ H1));
      try (by destruct (Hg _ H2)). eauto.
Qed.

(** What each entry point leaves of the run queue, the sleeping table
    and the flags. *)
Lemma try_remove_view (g : gid) (k : t) h :
  (∀ e, h e = mret tt ∨ h e = raise e) →
  let k' := (try_except (runq_remove g) h k).2 in
  runq k' = remove_or_keep g (runq k) ∧
  sleeping k' = sleeping k ∧ g_sleeping k' = g_sleeping k ∧
  g_alive k' = g_alive k.
Proof.
  intros Hh. unfold runq_remove, remove_or_keep. run_m.
  destruct (deque_remove g (runq k)) as [q'|] eqn:E; simpl; [done|].
  destruct (Hh (ValueError "deque.remove(x): x not in deque")) as [-> | ->];
    done.
Qed.

Lemma removeg_view (g : gid) (k : t) :
  let k' := (removeg g k).2 in
  runq k' = remove_or_keep g (runq k) ∧
  sleeping k' = sleeping k ∧ g_sleeping k' = g_sleeping k ∧
  g_alive k' = g_alive k.
Proof. apply try_remove_view. intros e. by left. Qed.

Lemma park_prologue_view (g : gid) (k : t) :
  let k' := (park_prologue g k).2 in
  runq k' = remove_or_keep g (runq k) ∧
  sleeping k' = sleeping k ∧ g_sleeping k' = <[g := true]> (g_sleeping k) ∧
  g_alive k' = g_alive k.
Proof.
  unfold park_prologue.
  change ((modify (set_g_sleeping g true) ;;
           try_except (runq_remove g)
             (λ e, match e with ValueError _ => mret () | _ => raise e end))
          k)
    with (try_except (runq_remove g)
            (λ e, match e with ValueError _ => mret () | _ => raise e end)
            (set_g_sleeping g true k)).
  apply (try_remove_view g (set_g_sleeping g true k)).
  intros []; auto.
Qed.

Lemma exit_syscall_view (f : Future) (k : t) :
  let k' := (exit_syscall f k).2 in
  g_alive k' = g_alive k ∧
  match sleeping k !! fut_id f with
  | None =>
      runq k' = runq k ∧ sleeping k' = sleeping k ∧
      g_sleeping k' = g_sleeping k
  | Some g =>
      sleeping k' = delete (fut_id f) (sleeping k) ∧
      if cancelled f || negb (g_alive k g) then
        runq k' = runq k ∧ g_sleeping k' = g_sleeping k
      else
        runq k' = g :: runq k ∧ g_sleeping k' = <[g := false]> (g_sleeping k)
  end.
Proof.
  unfold exit_syscall, sleeping_pop. run_m.
  destruct (sleeping k !! fut_id f) as [g|]; simpl; [|done].
  destruct (cancelled f); simpl; [done|].
  destruct (g_alive k g); simpl; done.
Qed.

Lemma fn_insert_true_mono (fl : gid → bool) (g x : gid) :
  fl x = true → <[g := true]> fl x = true.
Proof.
  intros Hx. destruct (decide (x = g)) as [->|Hne].
  - apply fn_lookup_insert.
  - by rewrite fn_lookup_insert_ne.
Qed.

Lemma snoc_enqueue (rq : list gid) (g x : gid) :
  x ∈ rq ++ [g] ↔ x = g ∨ x ∈ rq.
Proof. rewrite elem_of_app, list_elem_of_singleton. tauto. Qed.

Lemma snoc_NoDup (rq : list gid) (g : gid) :
  NoDup rq → g ∉ rq → NoDup (rq ++ [g]).
Proof.
  intros Hnd Hg. apply list.NoDup_app. split; [done|].
  split; [|apply NoDup_singleton].
  intros x Hx. rewrite list_elem_of_singleton. by intros ->.
Qed.

Lemma not_in_sleeping (k : t) (g : gid) :
  ¬ in_sleeping k g → ∀ f, sleeping k !! f ≠ Some g.
Proof. intros Hg f Hf. apply Hg. by exists f. Qed.

Lemma park_prologue_inv (g : gid) (k : t) :
  queues_inv k → queues_inv (park_prologue g k).2.
Proof.
  intros Hk. destruct (park_prologue_view g k) as (Hr & Hs & Hf & _).
  unfold queues_inv. rewrite Hr, Hs, Hf.
  apply (queues_inv3_mono (runq k) _ _ (g_sleeping k)); [done|..].
  - apply remove_or_keep_NoDup, Hk.
  - apply remove_or_keep_sub.
  - intros x. apply fn_insert_true_mono.
Qed.

Lemma exit_syscall_inv (f : Future) (k : t) :
  queues_inv k → queues_inv (exit_syscall f k).2.
Proof.
  intros Hk. destruct (exit_syscall_view f k) as (_ & Hv).
  unfold queues_inv.
  destruct (sleeping k !! fut_id f) as [g|] eqn:Hf.
  - destruct Hv as [Hs Hv]. rewrite Hs.
    destruct (cancelled f || negb (g_alive k g)); destruct Hv as [-> ->].
    + by apply queues_inv3_delete.
    + destruct Hk as (Hnd & Hsl & Hinj).
      destruct (Hsl _ _ Hf) as [_ Hg].
      apply (queues_inv3_enqueue (runq k) _ _ (g_sleeping k) _ g).
      * by apply queues_inv3_delete.
      * intros f' Hf'. apply lookup_delete_Some in Hf' as [Hne Hf'].
        apply Hne. by apply (Hinj _ _ g).
      * done.
      * intros x. by rewrite elem_of_cons.
      * by apply list.NoDup_cons.
      * intros x Hx. by apply fn_lookup_insert_ne.
  - by destruct Hv as (-> & -> & ->).
Qed.

Lemma remove_or_keep_head (g : gid) (rq : list gid) :
  remove_or_keep g (g :: rq) = rq.
Proof. unfold remove_or_keep. simpl. by rewrite decide_True. Qed.

Lemma enter_syscall_prologue_inv (gt : gid) (f : Future) (d : bool) (k : t) :
  queues_inv k →
  sleeping k !! fut_id f = None → ¬ in_sleeping k gt →
  queues_inv (enter_syscall_prologue gt f d k).2.
Proof.
  intros Hk Hf Hgt.
  pose (k1 := set_sleeping (<[fut_id f := gt]>) (set_g_sleeping gt true k)).
  destruct d.
  - change (enter_syscall_prologue gt f true k)
      with (mbind (λ _, park_prologue gt) (exit_syscall f) k1).
    unfold mbind, M_bind.
    destruct (exit_syscall_view f k1) as (_ & Hv).
    unfold k1 in Hv. simpl in Hv. rewrite lookup_insert_eq in Hv.
    destruct Hv as [Hs Hv]. rewrite delete_insert_id in Hs by done.
    assert ((exit_syscall f k1).1 = Ok tt) as Hok.
    { unfold exit_syscall, sleeping_pop, k1. run_m.
      rewrite lookup_insert_eq. simpl.
      destruct (cancelled f); [done|]. simpl.
      by destruct (g_alive k gt). }
    fold k1 in Hs, Hv.
    destruct (exit_syscall f k1) as [r k2]. simpl in *. subst r.
    destruct (park_prologue_view gt k2) as (Hr' & Hs' & Hf' & _).
    unfold queues_inv. rewrite Hr', Hs', Hf', Hs.
    destruct (cancelled f || negb (g_alive k gt)); destruct Hv as [-> ->].
    + apply (queues_inv3_mono (runq k) _ _ (g_sleeping k)); [done|..].
      * apply remove_or_keep_NoDup, Hk.
      * apply remove_or_keep_sub.
      * intros x Hx. by do 2 apply fn_insert_true_mono.
    + rewrite remove_or_keep_head.
      apply (queues_inv3_mono (runq k) _ _ (g_sleeping k));
        [done|apply Hk|done|].
      intros x Hx. destruct (decide (x = gt)) as [->|Hne].
      * apply fn_lookup_insert.
      * by rewrite !fn_lookup_insert_ne.
  - change (enter_syscall_prologue gt f false k)
      with (park_prologue gt k1).
    destruct (park_prologue_view gt k1) as (Hr' & Hs' & Hf' & _).
    unfold queues_inv. rewrite Hr', Hs', Hf'. simpl.
    destruct (remove_or_keep_NoDup gt (runq k)) as [Hnd Hnot]; [apply Hk|].
    apply queues_inv3_insert;
      [|done|by apply not_in_sleeping|apply fn_lookup_insert|done].
    apply (queues_inv3_mono (runq k) _ _ (g_sleeping k)); [done|done|..].
    + apply remove_or_keep_sub.
    + intros x Hx. by do 2 apply fn_insert_true_mono.
Qed.

Lemma schedule_iter_inv (gcurrent : gid) (k : t) :
  queues_inv k → queues_inv (schedule_iter gcurrent k).2.
Proof.
  intros Hk. destruct (schedule_iter_footprint gcurrent k)
    as ((Hs & Hf & _) & _ & Hr).
  unfold queues_inv. rewrite Hs, Hf.
  destruct Hr as [-> | [-> | ->]]; [done|..];
    apply (queues_inv3_mono (runq k) _ _ (g_sleeping k)); auto.
  - apply runq_for_NoDup, Hk.
  - apply runq_for_sub.
  - apply tail_NoDup, runq_for_NoDup, Hk.
  - intros x Hx. by apply (runq_for_sub gcurrent), tail_sub.
Qed.

(** Every call keeps the invariant, [ready] when it wakes a parked
    goroutine. *)
Lemma exec_queues_inv (c : call) (k : t) :
  queues_inv k → well_formed k c → wakes_parked k c →
  queues_inv (exec c k).
Proof.
  intros Hk Hwf Hwp. destruct c as [sig|g|g|g|g|g|g|gt f d|f|g]; simpl.
  - unfold signal_recv. run_m. by case_bool_decide.
  - destruct Hwf as [Hq Hsl].
    apply (queues_inv3_enqueue (runq k) _ _ (g_sleeping k) _ g);
      [done|by apply not_in_sleeping|done|apply snoc_enqueue| |done].
    apply snoc_NoDup; [apply Hk|done].
  - destruct (removeg_view g k) as (Hr & Hs & Hf & _).
    unfold queues_inv. rewrite Hr, Hs, Hf.
    apply (queues_inv3_mono (runq k) _ _ (g_sleeping k)); auto.
    + apply remove_or_keep_NoDup, Hk.
    + apply remove_or_keep_sub.
  - by apply park_prologue_inv.
  - destruct Hwp as [Hq Hsl]. unfold ready. run_m.
    destruct (g_sleeping k g); simpl; [|done].
    apply (queues_inv3_enqueue (runq k) _ _ (g_sleeping k) _ g);
      [done|by apply not_in_sleeping|done|apply snoc_enqueue| |].
    + apply snoc_NoDup; [apply Hk|done].
    + intros x Hx. by apply fn_lookup_insert_ne.
  - done.
  - by apply schedule_iter_inv.
  - destruct Hwf as [Hf Hgt]. by apply enter_syscall_prologue_inv.
  - by apply exit_syscall_inv.
  - done.
Qed.

Lemma queues_inv_disjoint (k : t) : queues_inv k → disjoint_queues k.
Proof.
  intros (Hnd & Hsl & Hinj). split.
  - intros g Hg [f Hf]. by destruct (Hsl f g Hf).
  - intros g [f Hf]. by destruct (Hsl f g Hf).
Qed.

Lemma __init___queues_inv environ cpu_count sigmod main (k0 : t) :
  __init__ environ cpu_count sigmod main = Ok k0 → queues_inv k0.
Proof.
  unfold __init__.
  destruct (ThreadPoolExecutor_init _ _); [|done].
  intros [= <-]. split; [apply NoDup_nil_2|]. split; simpl.
  - intros f g Hf. by rewrite lookup_empty in Hf.
  - intros f f' g Hf. by rewrite lookup_empty in Hf.
Qed.

(** C7, amended: in every state that a newly constructed kernel reaches
    by its entry points ([signal_recv], [newproc], [removeg], [park],
    [ready], [run], [enter_syscall], [exit_syscall], iterations of
    [schedule]) and by the end of goroutines, with [ready] applied only to
    goroutines that are neither in the run queue nor in the sleeping
    table, no task is at once in the run queue and in the sleeping table,
    and every task of the sleeping table has its sleeping flag set. *)
Theorem parked_ready_keeps_queues_disjoint
    environ cpu_count sigmod main (k0 k : t) :
  __init__ environ cpu_count sigmod main = Ok k0 →
  reachable_parked k0 k →
  disjoint_queues k.
Proof.
  intros Hinit Hreach. apply queues_inv_disjoint.
  induction Hreach as [|k c Hreach IH [Hwf Hwp]].
  - by eapply __init___queues_inv.
  - by apply exec_queues_inv.
Qed.

Lemma parked_ready_keeps_queues_disjoint_witness :
  disjoint_queues (exec_all two_syscalls boot).
Proof.
  apply (parked_ready_keeps_queues_disjoint ∅ (Some 4%Z) linux_signal 0 boot).
  - reflexivity.
  - apply reachable_by_exec_all; [apply reach_init|]. compute_done.
Defined.

(** C7 as stated fails: [ready] only tests the flag. Goroutine 1 waits in
    [enter_syscall]; goroutine 2 calls [ready] on it: goroutine 1 is then
    in the run queue and still in the sleeping table, its flag cleared. *)
Lemma ready_breaks_disjoint_queues :
  let k := exec_all ready_in_syscall boot in
  reachable boot k ∧
  1 ∈ runq k ∧ sleeping k !! 11 = Some 1 ∧ g_sleeping k 1 = false ∧
  ¬ disjoint_queues k.
Proof.
  assert (reachable boot (exec_all ready_in_syscall boot)) as Hreach.
  { apply reachable_by_exec_all; [apply reach_init|]. compute_done. }
  assert (sleeping (exec_all ready_in_syscall boot) !! 11 = Some 1) as Hsl
    by reflexivity.
  assert (1 ∈ runq (exec_all ready_in_syscall boot)) as Hin
    by compute_done.
  repeat split; try done.
  intros [Hdis _]. apply (Hdis 1 Hin). by exists 11.
Qed.

(** ** The runs used above, iteration by iteration *)

Lemma two_syscalls_ticks :
  ticks two_syscalls boot
  = [Ok (Switch 1); Ok (Switch 2); Ok (Wait [12; 11])].
Proof. reflexivity. Qed.

Lemma nested_run_ticks :
  ticks nested_run boot = [Ok (Switch 1); Ok (Back 1); Ok (Pruned 1)] ∧
  (schedule_resume 0
     (exec_all [Newproc 1; Run 0; Schedule 0; Run 1; Schedule 1; Dies 1]
        boot)).1 = Ok false.
Proof. split; reflexivity. Qed.

Lemma syscall_among_tasks_ticks :
  reachable boot (exec_all syscall_among_tasks boot) ∧
  ticks syscall_among_tasks boot = [Ok (Switch 1); Ok (Switch 2)].
Proof.
  split; [|reflexivity].
  apply reachable_by_exec_all; [apply reach_init|]. compute_done.
Qed.

Lemma ready_in_syscall_ticks :
  ticks ready_in_syscall boot = [Ok (Switch 1); Ok (Switch 2)].
Proof. reflexivity. Qed.

(** The underflow, in general: nothing to run, nothing awaited, and a
    dead goroutine on top of [_run_calls]. *)
Lemma prune_underflows (k : t) (gcurrent g : gid) :
  fatal_pending k = false →
  runq k = [] → sleeping k = ∅ →
  list.last (_run_calls k) = Some g → g_alive k g = false →
  (schedule_iter gcurrent k).1 = Raise (IndexError "pop from an empty deque").
Proof.
  intros Hf Hq Hs Hl Ha. rewrite schedule_iter_eq, Hf.
  unfold schedule_body, run_calls_pop. run_m. rewrite Hq. simpl.
  rewrite Hs, map_size_empty. simpl.
  destruct (_run_calls k) as [|g1 rc] eqn:Hrc; [done|]. simpl.
  rewrite Hrc, Hl. simpl. rewrite dispatch_eq. simpl. by rewrite Ha, Hq.
Qed.

(** The bound on the signal buffer holds along every run, whatever the
    calls. *)
Lemma exec_SIGQUEUE_bounded (c : call) (k : t) :
  length (SIGQUEUE k) ≤ 5 → length (SIGQUEUE (exec c k)) ≤ 5.
Proof.
  intros Hk. destruct c as [sig|g|g|g|g|g|g|gt f d|f|g]; simpl;
    try done.
  - by apply signal_recv_length.
  - unfold removeg, runq_remove. run_m.
    by destruct (deque_remove g (runq k)).
  - unfold park_prologue, runq_remove. run_m.
    by destruct (deque_remove g (runq k)).
  - unfold ready. run_m. by destruct (g_sleeping k g).
  - destruct (schedule_iter_footprint g k) as (_ & -> & _).
    destruct (SIGQUEUE k); simpl in *; lia.
  - unfold enter_syscall_prologue, exit_syscall, sleeping_pop,
      park_prologue, runq_remove. run_m.
    destruct d; simpl.
    + rewrite lookup_insert_eq. simpl.
      destruct (cancelled f); simpl;
        [by destruct (deque_remove gt (runq k))|].
      destruct (g_alive k gt); simpl.
      * by rewrite decide_True.
      * by destruct (deque_remove gt (runq k)).
    + by destruct (deque_remove gt (runq k)).
  - unfold exit_syscall, sleeping_pop. run_m.
    destruct (sleeping k !! fut_id f) as [g|]; simpl; [|done].
    destruct (cancelled f); simpl; [done|].
    by destruct (g_alive k g).
Qed.

Lemma reachable_SIGQUEUE_bounded (k0 k : t) :
  length (SIGQUEUE k0) ≤ 5 → reachable k0 k → length (SIGQUEUE k) ≤ 5.
Proof.
  intros H0 Hreach. induction Hreach as [|k c _ IH _]; [done|].
  by apply exec_SIGQUEUE_bounded.
Qed.

(** ** Construction *)

(** Without the override the pool gets the number of processors, or 2
    when that number cannot be determined, and is constructed. *)
Lemma __init___default_threads environ cpu_count sigmod main :
  environ !! "OFFSET_MAX_THREADS"%string = None →
  (0 < DEFAULT_MAX_THREADS cpu_count)%Z →
  ∃ k, __init__ environ cpu_count sigmod main = Ok k ∧
       _max_threads k = PyInt (DEFAULT_MAX_THREADS cpu_count) ∧
       _max_workers (tpool k) = DEFAULT_MAX_THREADS cpu_count.
Proof.
  intros Henv Hpos. unfold __init__, init_max_threads. rewrite Henv. simpl.
  rewrite bool_decide_eq_false_2 by lia. eauto.
Qed.

Lemma DEFAULT_MAX_THREADS_undetermined : DEFAULT_MAX_THREADS None = 2%Z.
Proof. reflexivity. Qed.

(** C10 fails on the code: with [OFFSET_MAX_THREADS=4] in the environment
    the value handed to the pool is the string ["4"] as read, not the
    number 4, and the constructor of the pool, which compares it with 0,
    raises [TypeError]: no kernel is constructed. *)
Theorem override_is_passed_as_string :
  let environ : gmap string string :=
    {[ "OFFSET_MAX_THREADS"%string := "4"%string ]} in
  init_max_threads environ (Some 8%Z) = PyStr "4" ∧
  init_max_threads environ (Some 8%Z) ≠ PyInt 4 ∧
  ∀ sigmod main,
    __init__ environ (Some 8%Z) sigmod main
    = Raise (TypeError
        "'<=' not supported between instances of 'str' and 'int'").
Proof.
  split; [reflexivity|]. split; [discriminate|]. reflexivity.
Qed.

(** * Further properties of the kernel *)

(** ** [removeg] *)




(** ** [park] and [ready] together *)

(** X2: [ready(g)] after [park(g)] always succeeds: it moves [g] to the
    tail of the run queue (or adds it there when it was not queued),
    leaves its flag cleared and does not touch the sleeping table. *)
Theorem park_then_ready (k : t) (g : gid) :
  let k1 := (park_prologue g k).2 in
  (park_prologue g k).1 = Ok tt ∧
  (ready g k1).1 = Ok tt ∧
  runq (ready g k1).2 = remove_or_keep g (runq k) ++ [g] ∧
  g_sleeping (ready g k1).2 g = false ∧
  sleeping (ready g k1).2 = sleeping k.
Proof.
  destruct (park_prologue_view g k) as (Hr & Hs & Hf & _).
  assert ((park_prologue g k).1 = Ok tt) as Hok.
  { unfold park_prologue, runq_remove. run_m.
    by destruct (deque_remove g (runq k)). }
  split; [done|].
  unfold ready. run_m. rewrite Hf, fn_lookup_insert. simpl.
  rewrite Hr, Hs. repeat split. apply fn_lookup_insert.
Qed.

(** X3: the double wake. After a [ready(g)] that succeeded, a second
    [ready(g)] raises [KernelError] and changes nothing: [g] is not
    queued twice. *)
Theorem ready_twice_raises (k : t) (g : gid) :
  g_sleeping k g = true →
  (ready g k).1 = Ok tt ∧
  ready g (ready g k).2
  = (Raise (KernelError "bad goroutine status"), (ready g k).2).
Proof.
  intros Hs. unfold ready. run_m. rewrite Hs. simpl.
  split; [done|]. by rewrite fn_lookup_insert.
Qed.

Lemma ready_twice_raises_witness :
  (ready 1 (ready 1 (exec (Park 1) two_tasks)).2).1
  = Raise (KernelError "bad goroutine status") ∧
  runq (ready 1 (ready 1 (exec (Park 1) two_tasks)).2).2 = [2; 1].
Proof.
  destruct (ready_twice_raises (exec (Park 1) two_tasks) 1) as [_ H2].
  - reflexivity.
  - rewrite H2. split; reflexivity.
Defined.

(** ** Completion of an offloaded call: the other paths *)

(** X4: [exit_syscall(f)] for a future that is not in the sleeping table
    raises [KeyError] and leaves the kernel as it was. *)
Theorem exit_syscall_unknown_future (k : t) (f : Future) :
  sleeping k !! fut_id f = None →
  exit_syscall f k = (Raise (KeyError (fut_id f)), k).
Proof.
  intros Hf. unfold exit_syscall, sleeping_pop. run_m. by rewrite Hf.
Qed.

Lemma exit_syscall_unknown_future_witness :
  exit_syscall f1 two_tasks = (Raise (KeyError 11), two_tasks).
Proof. apply (exit_syscall_unknown_future two_tasks f1). reflexivity. Defined.

(** X5: when the work of the future was cancelled, or its goroutine is
    no longer alive, [exit_syscall] only forgets the future: the entry
    leaves the sleeping table, the other entries stay, and the goroutine
    is not put in the run queue and keeps its sleeping flag as it was. *)
Theorem exit_syscall_drops (k : t) (f : Future) (g : gid) :
  sleeping k !! fut_id f = Some g →
  cancelled f = true ∨ g_alive k g = false →
  (exit_syscall f k).1 = Ok tt ∧
  sleeping (exit_syscall f k).2 !! fut_id f = None ∧
  (∀ f', f' ≠ fut_id f →
     sleeping (exit_syscall f k).2 !! f' = sleeping k !! f') ∧
  runq (exit_syscall f k).2 = runq k ∧
  g_sleeping (exit_syscall f k).2 = g_sleeping k.
Proof.
  intros Hf Hdrop. unfold exit_syscall, sleeping_pop. run_m.
  rewrite Hf. simpl.
  assert (∀ f', f' ≠ fut_id f →
            delete (fut_id f) (sleeping k) !! f' = sleeping k !! f') as Hne.
  { intros f' Hf'. by apply lookup_delete_ne. }
  destruct (cancelled f) eqn:Hc; simpl.
  - split; [done|]. split; [apply lookup_delete_eq|]. by repeat split.
  - destruct Hdrop as [|Ha]; [done|]. rewrite Ha. simpl.
    split; [done|]. split; [apply lookup_delete_eq|]. by repeat split.
Qed.

Lemma exit_syscall_drops_witness :
  let k := exec_all two_syscalls_pending boot in
  sleeping k !! 11 = Some 1 ∧
  runq (exit_syscall (mkFuture 11 Cancelled) k).2 = runq k ∧
  g_sleeping (exit_syscall (mkFuture 11 Cancelled) k).2 1 = true.
Proof.
  destruct (exit_syscall_drops (exec_all two_syscalls_pending boot)
              (mkFuture 11 Cancelled) 1) as (_ & _ & _ & Hq & Hfl).
  - reflexivity.
  - left. reflexivity.
  - split; [reflexivity|]. split; [exact Hq|]. rewrite Hfl. reflexivity.
Defined.

(** ** The syscall bridge, end to end *)

(** X6: an offloaded call from entry to completion. [enter_syscall] (its
    future not yet done when the callback is registered) records the
    future for the caller, sets the caller's flag and takes the caller
    out of the run queue; the completion, when the work was not cancelled
    and the caller is alive, gives the sleeping table back as it was,
    clears the flag and puts the caller at the head of the run queue. *)
Theorem syscall_round_trip (k : t) (gt : gid) (f : Future) :
  sleeping k !! fut_id f = None →
  cancelled f = false →
  g_alive k gt = true →
  let k1 := (enter_syscall_prologue gt f false k).2 in
  let k2 := (exit_syscall f k1).2 in
  (enter_syscall_prologue gt f false k).1 = Ok tt ∧
  sleeping k1 !! fut_id f = Some gt ∧
  g_sleeping k1 gt = true ∧
  runq k1 = remove_or_keep gt (runq k) ∧
  (exit_syscall f k1).1 = Ok tt ∧
  sleeping k2 = sleeping k ∧
  g_sleeping k2 gt = false ∧
  runq k2 = gt :: remove_or_keep gt (runq k).
Proof.
  intros Hf Hc Ha.
  pose (k0 := set_sleeping (<[fut_id f := gt]>) (set_g_sleeping gt true k)).
  change (enter_syscall_prologue gt f false k) with (park_prologue gt k0).
  destruct (park_prologue_view gt k0) as (Hr & Hs & Hfl & Hal).
  simpl in Hr, Hs, Hfl, Hal.
  assert ((park_prologue gt k0).1 = Ok tt) as Hok.
  { unfold park_prologue, runq_remove. run_m.
    by destruct (deque_remove gt (runq k)). }
  assert (sleeping (park_prologue gt k0).2 !! fut_id f = Some gt) as Hin.
  { rewrite Hs. apply lookup_insert_eq. }
  assert (g_alive (park_prologue gt k0).2 gt = true) as Ha'
    by (by rewrite Hal).
  split; [done|]. split; [done|].
  split; [rewrite Hfl; apply fn_lookup_insert|]. split; [done|].
  rewrite (exit_syscall_eq f gt _ Hin Hc Ha'). simpl.
  split; [done|]. split; [by rewrite Hs, delete_insert_id|].
  split; [apply fn_lookup_insert|]. by rewrite Hr.
Qed.

Lemma syscall_round_trip_witness :
  let k1 := (enter_syscall_prologue 1 f1 false two_tasks).2 in
  runq k1 = [2] ∧ sleeping k1 !! 11 = Some 1 ∧
  runq (exit_syscall f1 k1).2 = [1; 2] ∧
  sleeping (exit_syscall f1 k1).2 = sleeping two_tasks.
Proof.
  destruct (syscall_round_trip two_tasks 1 f1)
    as (_ & Hin & _ & Hq1 & _ & Hs2 & _ & Hq2); try reflexivity.
  split; [rewrite Hq1; reflexivity|]. split; [exact Hin|].
  split; [rewrite Hq2; reflexivity|]. exact Hs2.
Defined.

(** X7: a future that is already done when [enter_syscall] registers the
    callback. The callback runs at once, inside [enter_syscall], and
    [park] then takes back what it did: the caller ends with its sleeping
    flag set and no entry in the sleeping table, the run queue being as
    before the call. No later completion will clear the flag. *)
Theorem enter_syscall_done_at_registration (k : t) (gt : gid) (f : Future) :
  sleeping k !! fut_id f = None →
  cancelled f = false →
  g_alive k gt = true →
  let k' := (enter_syscall_prologue gt f true k).2 in
  (enter_syscall_prologue gt f true k).1 = Ok tt ∧
  sleeping k' = sleeping k ∧
  runq k' = runq k ∧
  g_sleeping k' gt = true.
Proof.
  intros Hf Hc Ha.
  unfold enter_syscall_prologue, exit_syscall, sleeping_pop,
    park_prologue, runq_remove. run_m.
  rewrite lookup_insert_eq. simpl. rewrite Hc. simpl. rewrite Ha. simpl.
  rewrite decide_True by done. simpl.
  split; [done|]. split; [by rewrite delete_insert_id|].
  split; [done|]. apply fn_lookup_insert.
Qed.

Lemma enter_syscall_done_at_registration_witness :
  let k' := (enter_syscall_prologue 1 f1 true two_tasks).2 in
  sleeping k' = sleeping two_tasks ∧ runq k' = [1; 2] ∧
  g_sleeping k' 1 = true.
Proof.
  destruct (enter_syscall_done_at_registration two_tasks 1 f1)
    as (_ & Hs & Hq & Hfl); try reflexivity.
  split; [exact Hs|]. split; [rewrite Hq; reflexivity|]. exact Hfl.
Defined.

(** ** What an iteration of the loop can and cannot do *)




Lemma runq_for_length (gcurrent : gid) (q : list gid) :
  length (runq_for gcurrent q) = length q.
Proof.
  destruct q as [|g0 q]; simpl; [done|].
  destruct (decide (g0 = gcurrent)); [|done]. simpl.
  rewrite length_app. simpl. lia.
Qed.

(** X9: an iteration of the loop never adds a goroutine to the run queue
    and never touches the sleeping table or a flag: the goroutines queued
    afterwards were queued before, at most one has left, and a queue
    without repetition stays so. *)
Theorem schedule_never_enqueues (k : t) (gcurrent : gid) :
  let k' := (schedule_iter gcurrent k).2 in
  sleeping k' = sleeping k ∧
  g_sleeping k' = g_sleeping k ∧
  g_alive k' = g_alive k ∧
  (∀ x, x ∈ runq k' → x ∈ runq k) ∧
  length (runq k) - 1 ≤ length (runq k') ≤ length (runq k) ∧
  (NoDup (runq k) → NoDup (runq k')).
Proof.
  destruct (schedule_iter_footprint gcurrent k)
    as ((Hs & Hf & Ha & _) & _ & Hr).
  split; [done|]. split; [done|]. split; [done|].
  pose proof (runq_for_length gcurrent (runq k)) as Hlen.
  destruct Hr as [-> | [-> | ->]].
  - split; [done|]. split; [lia|done].
  - split; [apply runq_for_sub|]. split; [lia|apply runq_for_NoDup].
  - split; [|split].
    + intros x Hx. by apply (runq_for_sub gcurrent), tail_sub.
    + destruct (runq_for gcurrent (runq k)); simpl in *; lia.
    + intros Hnd. by apply tail_NoDup, runq_for_NoDup.
Qed.

(** ** The loop to its end *)

Lemma schedule_iter_prunes_head (k : t) (gcurrent d : gid) (q : list gid) :
  runq k = d :: q → g_alive k d = false → d ≠ gcurrent →
  SIGQUEUE k = [] →
  ∃ k', schedule_iter gcurrent k = (Ok (Pruned d), k') ∧
        runq k' = q ∧ sleeping k' = sleeping k ∧
        _run_calls k' = _run_calls k ∧ g_alive k' = g_alive k ∧
        SIGQUEUE k' = [].
Proof.
  intros Hq Hd Hne Hsig. rewrite schedule_iter_eq.
  unfold fatal_pending. rewrite Hsig. simpl.
  edestruct (schedule_body_runq gcurrent d q (set_SIGQUEUE tail k))
    as (gnext & Hhd & ->); [exact Hq|].
  simpl in Hhd. rewrite decide_False in Hhd by done. injection Hhd as <-.
  rewrite dispatch_eq. simpl. rewrite Hd, Hq. simpl.
  rewrite decide_False by done.
  eexists. split; [reflexivity|]. simpl. by rewrite Hsig.
Qed.

Lemma schedule_iter_back_to_caller (k : t) (gcurrent : gid)
    (rc : list gid) :
  runq k = [] → sleeping k = ∅ → SIGQUEUE k = [] →
  _run_calls k = rc ++ [gcurrent] → g_alive k gcurrent = true →
  ∃ k', schedule_iter gcurrent k = (Ok (Back gcurrent), k') ∧
        runq k' = [] ∧ _run_calls k' = rc ∧ _last_task k' = gcurrent ∧
        sleeping k' = ∅.
Proof.
  intros Hq Hs Hsig Hrc Ha. rewrite schedule_iter_eq.
  unfold fatal_pending. rewrite Hsig. simpl.
  unfold schedule_body, run_calls_pop. run_m. rewrite Hq. simpl.
  rewrite Hs, map_size_empty. simpl.
  destruct (_run_calls k) as [|g1 l] eqn:E; [by destruct rc|]. simpl.
  rewrite E, Hrc, last_snoc. simpl.
  rewrite dispatch_eq. simpl. rewrite Ha.
  destruct (decide (gcurrent ≠ gcurrent)); [done|].
  eexists. split; [reflexivity|]. simpl.
  rewrite E, Hrc, removelast_last. by rewrite Hq, Hs.
Qed.

Lemma schedule_loop_drains (q : list gid) :
  ∀ (k : t) (gcurrent : gid) (rc : list gid),
  runq k = q → (∀ d, d ∈ q → g_alive k d = false) →
  g_alive k gcurrent = true →
  sleeping k = ∅ → SIGQUEUE k = [] →
  _run_calls k = rc ++ [gcurrent] →
  ∃ k', schedule_loop (S (length q)) gcurrent k
        = Some (Ok (Back gcurrent), k') ∧
        runq k' = [] ∧ _run_calls k' = rc ∧ _last_task k' = gcurrent ∧
        sleeping k' = ∅.
Proof.
  induction q as [|d q IH]; intros k gcurrent rc Hq Hdead Ha Hs Hsig Hrc.
  - destruct (schedule_iter_back_to_caller k gcurrent rc)
      as (k' & Hk' & Hres); try done.
    exists k'. simpl. by rewrite Hk'.
  - assert (g_alive k d = false) as Hd
      by (apply Hdead, list_elem_of_here).
    assert (d ≠ gcurrent) as Hne by (intros ->; congruence).
    destruct (schedule_iter_prunes_head k gcurrent d q)
      as (k1 & Hk1 & Hq1 & Hs1 & Hrc1 & Ha1 & Hsig1); try done.
    destruct (IH k1 gcurrent rc) as (k' & Hk' & Hres); try done.
    + intros x Hx. rewrite Ha1. by apply Hdead, list_elem_of_further.
    + by rewrite Ha1.
    + by rewrite Hs1.
    + by rewrite Hrc1.
    + exists k'. split; [|done].
      change (schedule_loop (S (length (d :: q))) gcurrent k)
        with (match schedule_iter gcurrent k with
              | (Ok (Pruned _), k') =>
                  schedule_loop (S (length q)) gcurrent k'
              | r => Some r
              end).
      by rewrite Hk1.
Qed.

(** X10: [run()] comes back. Called on a kernel where every queued
    goroutine has ended (or none is queued), nothing is awaited and no
    signal is buffered, [run] prunes the queue, one goroutine an
    iteration, and returns to its caller within one iteration more than
    there are goroutines queued; the run queue is then empty and
    [_run_calls] is as [run] found it. *)
Theorem run_returns_when_all_ended (k : t) (gcurrent : gid) :
  (∀ d, d ∈ runq k → g_alive k d = false) →
  g_alive k gcurrent = true →
  sleeping k = ∅ → SIGQUEUE k = [] →
  ∃ k', run (S (length (runq k))) gcurrent k
        = Some (Ok (Back gcurrent), k') ∧
        runq k' = [] ∧ _run_calls k' = _run_calls k ∧
        _last_task k' = gcurrent.
Proof.
  intros Hdead Ha Hs Hsig. unfold run.
  destruct (schedule_loop_drains (runq k) (run_prologue gcurrent k).2
              gcurrent (_run_calls k))
    as (k' & Hk' & Hq & Hrc & Hlt & _); try done.
  by exists k'.
Qed.

Lemma run_returns_when_all_ended_witness :
  let k := exec (Dies 2) (exec (Dies 1) two_tasks) in
  ∃ k', run 3 0 k = Some (Ok (Back 0), k') ∧
        runq k' = [] ∧ _run_calls k' = [] ∧ _last_task k' = 0.
Proof.
  apply (run_returns_when_all_ended
           (exec (Dies 2) (exec (Dies 1) two_tasks)) 0);
    try reflexivity.
  intros d Hd. apply elem_of_cons in Hd as [->|Hd]; [reflexivity|].
  apply list_elem_of_singleton in Hd as ->. reflexivity.
Defined.

(** ** Taking turns *)

Lemma schedule_iter_yields (k : t) (g a : gid) (r : list gid) :
  runq k = g :: a :: r → a ≠ g → g_alive k a = true → SIGQUEUE k = [] →
  ∃ k', schedule_iter g k = (Ok (Switch a), k') ∧
        runq k' = a :: r ++ [g] ∧ g_alive k' = g_alive k ∧
        SIGQUEUE k' = [] ∧ sleeping k' = sleeping k ∧
        g_sleeping k' = g_sleeping k.
Proof.
  intros Hq Hne Ha Hsig. rewrite schedule_iter_eq.
  unfold fatal_pending. rewrite Hsig. simpl.
  edestruct (schedule_body_runq g g (a :: r) (set_SIGQUEUE tail k))
    as (gnext & Hhd & ->); [exact Hq|].
  simpl in Hhd. rewrite decide_True in Hhd by done. injection Hhd as <-.
  rewrite dispatch_eq. simpl. rewrite Ha.
  rewrite (decide_True (P := a ≠ g)) by done.
  eexists. split; [reflexivity|]. simpl.
  rewrite Hq, Hsig. simpl. by rewrite decide_True.
Qed.

Lemma last_cons_default (a g : gid) (l : list gid) :
  List.last (a :: l) g = List.last l a.
Proof.
  revert a g. induction l as [|b l IH]; intros a g; [done|].
  change (List.last (a :: b :: l) g) with (List.last (b :: l) g).
  by rewrite !IH.
Qed.

Lemma gosched_round_walks (l : list gid) :
  ∀ (g : gid) (acc : list gid) (k : t),
  runq k = g :: l ++ acc → NoDup (g :: l ++ acc) →
  (∀ x, x ∈ l → g_alive k x = true) → SIGQUEUE k = [] →
  ∃ k', gosched_round (length l) g k
        = (map (λ x, Ok (Switch x)) l, k') ∧
        runq k' = List.last l g :: acc ++ removelast (g :: l) ∧
        g_alive k' = g_alive k ∧ sleeping k' = sleeping k ∧
        g_sleeping k' = g_sleeping k.
Proof.
  induction l as [|a l IH]; intros g acc k Hq Hnd Hal Hsig.
  - exists k. simpl in *. by rewrite app_nil_r.
  - assert (a ≠ g) as Hne.
    { intros ->. apply list.NoDup_cons in Hnd as [Hg _]. apply Hg.
      apply list_elem_of_here. }
    destruct (schedule_iter_yields k g a (l ++ acc))
      as (k1 & Hk1 & Hq1 & Ha1 & Hsig1 & Hs1 & Hf1); try done.
    { apply Hal, list_elem_of_here. }
    destruct (IH a (acc ++ [g]) k1) as (k' & Hk' & Hq' & Ha' & Hs' & Hf').
    + by rewrite Hq1, <- app_assoc.
    + apply list.NoDup_cons in Hnd as [Hg Hnd].
      apply list.NoDup_cons in Hnd as [Ha Hnd].
      rewrite app_assoc. apply list.NoDup_cons. split.
      * rewrite elem_of_app, list_elem_of_singleton. intuition.
      * apply snoc_NoDup; [done|].
        intros Hin. apply Hg. by apply list_elem_of_further.
    + intros x Hx. rewrite Ha1. by apply Hal, list_elem_of_further.
    + done.
    + exists k'.
      change (gosched_round (length (a :: l)) g k)
        with (match schedule_iter g k with
              | (Ok (Switch gnext), k') =>
                  let (rs, k'') := gosched_round (length l) gnext k' in
                  (Ok (Switch gnext) :: rs, k'')
              | (r, k') => ([r], k')
              end).
      rewrite Hk1, Hk'. split; [done|].
      rewrite Hq', last_cons_default, Ha', Ha1, Hs', Hs1, Hf', Hf1.
      split; [|done].
      change (removelast (g :: a :: l)) with (g :: removelast (a :: l)).
      by rewrite <- app_assoc.
Qed.

(** X11: taking turns. With at least two goroutines queued, none
    repeated and all alive, no signal buffered and the head of the queue
    running: when each goroutine in turn calls [schedule()], as many
    calls as there are goroutines queued switch into every goroutine
    once, in the order of the queue, the last switch going back to the
    one that started; the run queue is then as it was at the start. *)
Theorem gosched_round_robin (k : t) (g a : gid) (r : list gid) :
  runq k = g :: a :: r →
  NoDup (g :: a :: r) →
  (∀ x, x ∈ g :: a :: r → g_alive k x = true) →
  SIGQUEUE k = [] →
  ∃ k', gosched_round (length (g :: a :: r)) g k
        = (map (λ x, Ok (Switch x)) (a :: r ++ [g]), k') ∧
        runq k' = g :: a :: r ∧
        sleeping k' = sleeping k ∧ g_sleeping k' = g_sleeping k.
Proof.
  intros Hq Hnd Hal Hsig.
  assert (a ≠ g) as Hne.
  { intros ->. apply list.NoDup_cons in Hnd as [Hg _]. apply Hg.
    apply list_elem_of_here. }
  destruct (schedule_iter_yields k g a r)
    as (k1 & Hk1 & Hq1 & Ha1 & Hsig1 & Hs1 & Hf1); try done.
  { apply Hal, list_elem_of_further, list_elem_of_here. }
  destruct (gosched_round_walks (r ++ [g]) a [] k1)
    as (k' & Hk' & Hq' & Ha' & Hs' & Hf').
  - by rewrite Hq1, app_nil_r.
  - rewrite app_nil_r.
    apply list.NoDup_cons in Hnd as [Hg Hnd].
    apply list.NoDup_cons in Hnd as [Ha Hnd].
    apply list.NoDup_cons. split.
    + rewrite elem_of_app, list_elem_of_singleton. intuition.
    + apply snoc_NoDup; [done|].
      intros Hin. apply Hg. by apply list_elem_of_further.
  - intros x Hx. rewrite Ha1. apply Hal.
    apply elem_of_app in Hx as [Hx|Hx].
    + by do 2 apply list_elem_of_further.
    + apply list_elem_of_singleton in Hx as ->. apply list_elem_of_here.
  - done.
  - exists k'.
    replace (length (g :: a :: r)) with (S (length (r ++ [g])))
      by (rewrite length_app; simpl; lia).
    change (gosched_round (S (length (r ++ [g]))) g k)
      with (match schedule_iter g k with
            | (Ok (Switch gnext), k') =>
                let (rs, k'') :=
                  gosched_round (length (r ++ [g])) gnext k' in
                (Ok (Switch gnext) :: rs, k'')
            | (r, k') => ([r], k')
            end).
    rewrite Hk1, Hk'. split; [done|].
    rewrite Hq', Hs', Hs1, Hf', Hf1. split; [|done].
    rewrite last_last.
    change (a :: r ++ [g]) with ((a :: r) ++ [g]).
    by rewrite removelast_last.
Qed.

Lemma gosched_round_robin_witness :
  let k := exec (Newproc 3) two_tasks in
  ∃ k', gosched_round 3 1 k
        = ([Ok (Switch 2); Ok (Switch 3); Ok (Switch 1)], k') ∧
        runq k' = [1; 2; 3] ∧
        sleeping k' = sleeping k ∧ g_sleeping k' = g_sleeping k.
Proof.
  apply (gosched_round_robin (exec (Newproc 3) two_tasks) 1 2 [3]).
  - reflexivity.
  - compute_done.
  - intros x _. reflexivity.
  - reflexivity.
Defined.

(** ** Along every run *)

Lemma reachable_parked_queues_inv environ cpu_count sigmod main (k0 k : t) :
  __init__ environ cpu_count sigmod main = Ok k0 →
  reachable_parked k0 k → queues_inv k.
Proof.
  intros Hinit Hreach.
  induction Hreach as [|k c Hreach IH [Hwf Hwp]].
  - by eapply __init___queues_inv.
  - by apply exec_queues_inv.
Qed.

(** X12: along every run of a newly constructed kernel in which [ready]
    wakes parked goroutines only, no goroutine is twice in the run queue
    and no goroutine waits for two futures at once. *)
Theorem runs_keep_queue_without_repetition
    environ cpu_count sigmod main (k0 k : t) :
  __init__ environ cpu_count sigmod main = Ok k0 →
  reachable_parked k0 k →
  NoDup (runq k) ∧
  ∀ f f' g, sleeping k !! f = Some g → sleeping k !! f' = Some g → f = f'.
Proof.
  intros Hinit Hreach.
  destruct (reachable_parked_queues_inv _ _ _ _ _ _ Hinit Hreach)
    as (Hnd & _ & Hinj).
  by split.
Qed.

Lemma runs_keep_queue_without_repetition_witness :
  NoDup (runq (exec_all two_syscalls boot)).
Proof.
  apply (runs_keep_queue_without_repetition
           ∅ (Some 4%Z) linux_signal 0 boot).
  - reflexivity.
  - apply reachable_by_exec_all; [apply reach_init|]. compute_done.
Defined.

(** X13: along every run of a newly constructed kernel, whatever the
    calls and their order, the signal buffer holds 5 signals at most. *)
Theorem runs_keep_signal_buffer_bounded
    environ cpu_count sigmod main (k0 k : t) :
  __init__ environ cpu_count sigmod main = Ok k0 →
  reachable k0 k →
  length (SIGQUEUE k) ≤ 5.
Proof.
  intros Hinit Hreach. apply (reachable_SIGQUEUE_bounded k0); [|done].
  unfold __init__ in Hinit.
  destruct (ThreadPoolExecutor_init _ _); [|done].
  injection Hinit as <-. simpl. lia.
Qed.

Lemma runs_keep_signal_buffer_bounded_witness :
  length (SIGQUEUE (exec_all
    (two_syscalls ++ [SignalRecv 10; SignalRecv 12; SignalRecv 10;
                      SignalRecv 12; SignalRecv 10; SignalRecv 12]%Z)
    boot)) ≤ 5.
Proof.
  apply (runs_keep_signal_buffer_bounded ∅ (Some 4%Z) linux_signal 0 boot).
  - reflexivity.
  - apply reachable_by_exec_all; [apply reach_init|]. compute_done.
Defined.

(** ** The table of signal names *)

Lemma SIGNAMES_foldl (l : list (string * Z)) :
  ∀ (m : gmap Z string) (v : Z) (n : string),
  foldl (λ m p, <[p.2 := lower (substring 3 (String.length p.1 - 3) p.1)]> m)
        m l !! v = Some n →
  m !! v = Some n ∨
  ∃ name, (name, v) ∈ l ∧
          n = lower (substring 3 (String.length name - 3) name).
Proof.
  induction l as [|[name v0] l IH]; intros m v n H; simpl in *; [by left|].
  destruct (IH _ _ _ H) as [Hm|(name' & Hin & ->)].
  - apply lookup_insert_Some in Hm as [[<- <-]|[_ Hm]]; [|by left].
    right. exists name. split; [apply list_elem_of_here|done].
  - right. exists name'. split; [by apply list_elem_of_further|done].
Qed.

(** X14: every entry of [SIGNAMES] comes from an attribute of the
    [signal] module whose name starts with [SIG] and not with [SIG_]: the
    key is the value of the attribute and the name is the rest of the
    attribute's name in lower case. The handler constants ([SIG_DFL],
    [SIG_IGN], ...) never name a signal. *)
Theorem SIGNAMES_entries (sigmod : list (string * Z)) (v : Z) (n : string) :
  make_SIGNAMES sigmod !! v = Some n →
  ∃ name, (name, v) ∈ sigmod ∧
          is_signal_name name = true ∧
          n = lower (substring 3 (String.length name - 3) name).
Proof.
  unfold make_SIGNAMES. intros H.
  apply SIGNAMES_foldl in H as [H|(name & Hin & ->)];
    [by rewrite lookup_empty in H|].
  apply list_elem_of_In, filter_In in Hin as [Hin Hname].
  exists name. split; [by apply list_elem_of_In|]. by split.
Qed.

Lemma SIGNAMES_entries_witness :
  ∃ name, (name, 2%Z) ∈ linux_signal ∧
          is_signal_name name = true ∧
          "int"%string = lower (substring 3 (String.length name - 3) name).
Proof.
  apply (SIGNAMES_entries linux_signal 2%Z "int"). reflexivity.
Defined.

(** ** Which signals are kept *)

Lemma signal_recv_frame (sig : Z) (k : t) :
  let k' := (signal_recv sig k).2 in
  runq k' = runq k ∧ sleeping k' = sleeping k ∧
  _run_calls k' = _run_calls k ∧ _last_task k' = _last_task k ∧
  g_sleeping k' = g_sleeping k ∧ g_alive k' = g_alive k.
Proof. unfold signal_recv. run_m. by case_bool_decide. Qed.

(** X20: of the signals that arrive with no iteration of the loop in
    between, the buffer keeps the first ones, in the order of arrival, up
    to 5 entries in all, and drops the later ones; recording them touches
    neither the run queue, the sleeping table nor any flag. *)
Theorem signal_recv_keeps_first (sigs : list Z) (k : t) :
  length (SIGQUEUE k) ≤ 5 →
  let k' := signal_recv_all sigs k in
  SIGQUEUE k' = SIGQUEUE k ++ take (5 - length (SIGQUEUE k)) sigs ∧
  runq k' = runq k ∧ sleeping k' = sleeping k ∧
  g_sleeping k' = g_sleeping k ∧ g_alive k' = g_alive k.
Proof.
  revert k. induction sigs as [|sig sigs IH]; intros k Hk; simpl.
  - rewrite take_nil, app_nil_r. done.
  - destruct (signal_recv_frame sig k) as (Hr & Hs & _ & _ & Hf & Ha).
    destruct (IH (signal_recv sig k).2) as (Hq' & Hr' & Hs' & Hf' & Ha').
    { by apply signal_recv_length. }
    unfold signal_recv_all in *. simpl.
    rewrite Hq', Hr', Hs', Hf', Ha', Hr, Hs, Hf, Ha.
    split; [|done].
    unfold signal_recv. run_m. case_bool_decide as Hlt; simpl.
    + rewrite length_app. simpl. rewrite <- app_assoc. simpl.
      replace (5 - length (SIGQUEUE k)) with (S (5 - (length (SIGQUEUE k) + 1)))
        by lia.
      done.
    + replace (5 - length (SIGQUEUE k)) with 0 by lia. done.
Qed.

Lemma signal_recv_keeps_first_witness :
  SIGQUEUE (signal_recv_all [1; 10; 12; 1; 10; 12; 1]%Z two_tasks)
  = [1; 10; 12; 1; 10]%Z ∧
  runq (signal_recv_all [1; 10; 12; 1; 10; 12; 1]%Z two_tasks) = [1; 2].
Proof.
  destruct (signal_recv_keeps_first [1; 10; 12; 1; 10; 12; 1]%Z two_tasks)
    as (Hq & Hr & _).
  - vm_compute. lia.
  - split; [exact Hq|exact Hr].
Defined.

End KernelProps.

(** * Properties of the poller *)

Module PollsterProps.
Import Pollster.

Ltac run_p :=
  repeat (unfold mbind, M_bind, mret, M_ret, gets, modify, raise,
            try_finally, control_guarded in *; simpl in *).

(** C9 fails on the code: [fd_bsd.py] does not import [errno], so the
    handler of [select.error] raises [NameError] when it evaluates
    [errno.EINTR]. With the event buffer empty, an interrupted readiness
    call is not retried and another error of the operating system is not
    the one the caller sees; in both cases the caller gets [NameError],
    the lock being released. *)
Theorem waitfd_oserror_raises_NameError
    (fd_ : Z → Z) (code : Z) (rest : list kq_reply) :
  waitfd fd_ module_globals (OSError code :: rest) (mk [] false)
  = (Raise (NameError "errno"), mk [] false).
Proof. reflexivity. Qed.

(** The same call when the readiness call is interrupted once and then
    reports a readable descriptor: the claim has [(7, "r")] returned. *)
Lemma waitfd_EINTR_not_retried :
  waitfd id module_globals
    [OSError EINTR; Events [mk_kevent 7 KQ_FILTER_READ]] (mk [] false)
  = (Raise (NameError "errno"), mk [] false).
Proof. reflexivity. Qed.

(** With [errno] bound in the module the handler does what it is written
    for. *)
Section with_errno.

Variable fd_ : Z → Z.
Variable globals : list string.
Hypothesis errno_bound : "errno"%string ∈ globals.

Lemma waitfd_retries_EINTR (rest : list kq_reply) :
  waitfd fd_ globals (OSError EINTR :: rest) (mk [] false)
  = waitfd fd_ globals rest (mk [] false).
Proof.
  unfold waitfd. simpl. run_p.
  rewrite bool_decide_eq_true_2 by exact errno_bound. reflexivity.
Qed.

Lemma waitfd_propagates_other (code : Z) (rest : list kq_reply) :
  code ≠ EINTR →
  waitfd fd_ globals (OSError code :: rest) (mk [] false)
  = (Raise (select_error code), mk [] false).
Proof.
  intros Hne. unfold waitfd. simpl. run_p.
  rewrite bool_decide_eq_true_2 by exact errno_bound.
  rewrite bool_decide_eq_false_2 by exact Hne. reflexivity.
Qed.

End with_errno.

(** Whatever the module binds, the lock is released when [waitfd] returns
    or raises. *)
Lemma waitfd_loop_unlocked (globals : list string)
    (replies : list kq_reply) (p : t) :
  locked p = false →
  (waitfd_loop globals replies p).1 ≠ Ok false →
  locked (waitfd_loop globals replies p).2 = false.
Proof.
  revert p. induction replies as [|r replies IH]; intros p Hp; simpl.
  - run_p. case_bool_decide; simpl; [done|]. by intros _.
  - run_p. case_bool_decide as Hev; simpl; [|by intros _].
    destruct r as [evs|code]; simpl.
    + apply IH. reflexivity.
    + case_bool_decide; simpl; [|by intros _].
      case_bool_decide; simpl; [|by intros _].
      apply IH. reflexivity.
Qed.

Lemma waitfd_eq (fd_ : Z → Z) (globals : list string)
    (replies : list kq_reply) (p : t) :
  waitfd fd_ globals replies p =
  match waitfd_loop globals replies p with
  | (Ok true, p') =>
      match events p' with
      | [] => (Raise (IndexError "pop from empty list"), p')
      | ev :: evs' =>
          (Ok (Some (fd_ (ident ev),
                     if bool_decide (filter ev = KQ_FILTER_READ)
                     then "r"%string else "w"%string)),
           set_events (λ _, evs') p')
      end
  | (Ok false, p') => (Ok None, p')
  | (Raise e, p') => (Raise e, p')
  end.
Proof.
  unfold waitfd, mbind, M_bind.
  destruct (waitfd_loop globals replies p) as [[[]|e] p']; [|done..].
  unfold gets. by destruct (events p').
Qed.

Lemma waitfd_unlocked (fd_ : Z → Z) (globals : list string)
    (replies : list kq_reply) (p : t) :
  locked p = false →
  (waitfd fd_ globals replies p).1 ≠ Ok None →
  locked (waitfd fd_ globals replies p).2 = false.
Proof.
  intros Hp. rewrite waitfd_eq.
  pose proof (waitfd_loop_unlocked globals replies p Hp) as Hl.
  destruct (waitfd_loop globals replies p) as [[[]|e] p']; simpl in *.
  - intros _. destruct (events p'); simpl; by apply Hl.
  - done.
  - intros _. by apply Hl.
Qed.

(** * Further properties of the poller *)

(** The mode [waitfd] reports for an event. *)
Lemma mode_of_filter (ev : kevent) :
  (if bool_decide (filter ev = KQ_FILTER_READ) then "r" else "w")%string
  = (if Z.eqb (filter ev) (-1) then "r" else "w")%string.
Proof.
  unfold KQ_FILTER_READ. case_bool_decide as H.
  - by rewrite H.
  - destruct (Z.eqb_spec (filter ev) (-1)); [done|done].
Qed.

(** X15: with an event in the buffer [waitfd] returns the oldest one and
    takes it out of the buffer, without a call to the operating system
    and without touching the lock; the mode is ["r"] for the read filter
    and ["w"] for any other. *)
Theorem waitfd_pops_buffered
    (fd_ : Z → Z) (globals : list string) (replies : list kq_reply)
    (ev : kevent) (evs : list kevent) (b : bool) :
  waitfd fd_ globals replies (mk (ev :: evs) b)
  = (Ok (Some (fd_ (ident ev),
               if Z.eqb (filter ev) (-1) then "r" else "w")%string),
     mk evs b).
Proof.
  rewrite <- mode_of_filter. rewrite waitfd_eq.
  by destruct replies.
Qed.

(** X16: with the buffer empty, a readiness call that reports events
    refills the buffer: [waitfd] returns the first event reported, keeps
    the others for the calls to come and leaves the lock released; a
    readiness call that reports no event is followed by another one. *)
Theorem waitfd_refills
    (fd_ : Z → Z) (globals : list string) (rest : list kq_reply)
    (ev : kevent) (evs : list kevent) :
  waitfd fd_ globals (Events (ev :: evs) :: rest) (mk [] false)
  = (Ok (Some (fd_ (ident ev),
               if Z.eqb (filter ev) (-1) then "r" else "w")%string),
     mk evs false) ∧
  waitfd fd_ globals (Events [] :: rest) (mk [] false)
  = waitfd fd_ globals rest (mk [] false).
Proof.
  split.
  - rewrite <- mode_of_filter. rewrite waitfd_eq. by destruct rest.
  - by rewrite !waitfd_eq.
Qed.

(** X17: whatever goes wrong, [waitfd] does not keep the lock: when it
    returns an event or raises, having found the lock released, the lock
    is released. *)
Theorem waitfd_releases_lock
    (fd_ : Z → Z) (globals : list string) (replies : list kq_reply)
    (p : t) :
  locked p = false →
  (waitfd fd_ globals replies p).1 ≠ Ok None →
  locked (waitfd fd_ globals replies p).2 = false.
Proof. apply waitfd_unlocked. Qed.

Lemma waitfd_releases_lock_witness :
  locked (waitfd id module_globals
            [Events []; OSError 9; Events [mk_kevent 7 (-1)]]
            (mk [] false)).2 = false.
Proof.
  apply (waitfd_releases_lock id module_globals); [reflexivity|].
  vm_compute. discriminate.
Defined.

(** X18: [addfd] as the module stands registers nothing: it raises
    [NameError], for the name [sys] when the mode is ["r"] and for the
    name [selecy] otherwise, whatever the descriptor and [repeat]. *)
Theorem addfd_raises_NameError
    (_fd : Z → Z) (darwin : bool) (fd : Z) (mode : string) (repeat : bool)
    (changes : list kchange) :
  addfd module_globals _fd darwin fd mode repeat changes
  = (Raise (NameError (if String.eqb mode "r" then "sys" else "selecy")),
     changes).
Proof.
  unfold addfd. unfold mbind at 1, M_bind at 1.
  by destruct (String.eqb mode "r").
Qed.

(** X19: [delfd] as the module stands removes nothing: it raises
    [NameError] for the name [syscall], whatever the descriptor and the
    mode. *)
Theorem delfd_raises_NameError
    (_fd : Z → Z) (fd : Z) (mode : string) (changes : list kchange) :
  delfd module_globals _fd fd mode changes
  = (Raise (NameError "syscall"), changes).
Proof.
  unfold delfd. unfold mbind at 1, M_bind at 1.
  by destruct (String.eqb mode "r").
Qed.

(** With every name bound, [addfd] submits one change for the descriptor:
    the filter of the mode, and the flags [KQ_EV_ADD], with
    [KQ_EV_ENABLE] on darwin and [KQ_EV_ONESHOT] when [repeat] is
    false. *)
Lemma addfd_submits (globals : list string) (_fd : Z → Z) (darwin : bool)
    (fd : Z) (mode : string) (repeat : bool) (changes : list kchange) :
  (∀ name, name ∈ ["select"; "selecy"; "sys"; "_fd"]%string →
           name ∈ globals) →
  addfd globals _fd darwin fd mode repeat changes
  = (Ok tt,
     changes ++
     [mk_kchange (_fd fd)
        (if String.eqb mode "r" then KQ_FILTER_READ else KQ_FILTER_WRITE)
        (Z.lor (Z.lor KQ_EV_ADD (if darwin then KQ_EV_ENABLE else 0))
               (if repeat then 0 else KQ_EV_ONESHOT))]).
Proof.
  intros Hb.
  assert (∀ St name, name ∈ ["select"; "selecy"; "sys"; "_fd"]%string →
            @global globals St name = mret tt) as Hg.
  { intros St name Hin. unfold global.
    by rewrite bool_decide_eq_true_2 by by apply Hb. }
  unfold addfd.
  rewrite !(Hg _ "select"%string), !(Hg _ "selecy"%string),
    !(Hg _ "sys"%string), !(Hg _ "_fd"%string) by compute_done.
  destruct (String.eqb mode "r"), darwin, repeat; reflexivity.
Qed.

End PollsterProps.
